(** * BacSpecies: a shallow embedding of [BacSpecies.py]

    The development follows the Python source function by function:
    the string builtins the program relies on ([str.find], slicing,
    [str.split], [str.join], [int], [float]), the reference index
    ([process_reference]), the hit parser ([line_iterator],
    [BlastResult]), the best-match scan of [get_best_result], the report
    writer ([generate_output], [output]) and the driver loop of [main].

    Python [float] is IEEE-754 binary64 and is modelled by primitive
    floats; Python [int] is modelled by [Z]; [dict] by [gmap]; text
    files by a finite map from path to contents; [print] by a list of
    emitted lines; exceptions by an explicit result type. *)

From Stdlib Require Import ZArith Floats Ascii String.
From stdpp Require Import gmap strings list.

(** ** Python string builtins *)

Module Py.

(** Characters the program tests for. *)
Definition NL : ascii := "010"%char.
Definition CR : ascii := "013"%char.
Definition TAB : ascii := "009"%char.
Definition SPACE : ascii := " "%char.

Definition len (s : string) : Z := Z.of_nat (String.length s).

Fixpoint drop (n : nat) (s : string) : string :=
  match n, s with
  | O, _ => s
  | S n', String _ s' => drop n' s'
  | S _, EmptyString => EmptyString
  end.

Fixpoint take (n : nat) (s : string) : string :=
  match n, s with
  | O, _ => EmptyString
  | S n', String a s' => String a (take n' s')
  | S _, EmptyString => EmptyString
  end.

(** Index adjustment of slices: a negative index counts from the end,
    and the result is clamped to [0, len]. *)
Definition adjust_index (length i : Z) : Z :=
  if (i <? 0)%Z then Z.max 0 (i + length) else Z.min i length.

(** [s[a:b]] *)
Definition slice (s : string) (a b : Z) : string :=
  let a' := adjust_index (len s) a in
  let b' := adjust_index (len s) b in
  take (Z.to_nat (b' - a')) (drop (Z.to_nat a') s).

(** [s[a:]] *)
Definition slice_from (s : string) (a : Z) : string :=
  drop (Z.to_nat (adjust_index (len s) a)) s.

(** Offset of the first occurrence of [c] in [s]. *)
Fixpoint index_of (c : ascii) (s : string) : option nat :=
  match s with
  | EmptyString => None
  | String a s' =>
      if Ascii.eqb a c then Some O
      else match index_of c s' with
           | Some k => Some (S k)
           | None => None
           end
  end.

(** [s.find(c, start)] for a one-character needle: the lowest index
    [>= start] holding [c], or [-1]. *)
Definition find (s : string) (c : ascii) (start : Z) : Z :=
  let start' := if (start <? 0)%Z then Z.max 0 (start + len s) else start in
  if (len s <? start')%Z then (-1)%Z
  else match index_of c (drop (Z.to_nat start') s) with
       | Some k => (start' + Z.of_nat k)%Z
       | None => (-1)%Z
       end.

(** [s.split(sep)] for a one-character separator: every occurrence
    separates, so the result is never empty and may hold empty
    strings. *)
Fixpoint split (sep : ascii) (s : string) : list string :=
  match s with
  | EmptyString => [EmptyString]
  | String a s' =>
      if Ascii.eqb a sep then EmptyString :: split sep s'
      else match split sep s' with
           | t :: ts => String a t :: ts
           | [] => [String a EmptyString]
           end
  end.

(** [sep.join(l)] *)
Fixpoint join (sep : string) (l : list string) : string :=
  match l with
  | [] => EmptyString
  | [x] => x
  | x :: xs => x +:+ sep +:+ join sep xs
  end.

(** [s.startswith(p)] *)
Fixpoint startswith (s p : string) {struct p} : bool :=
  match p, s with
  | EmptyString, _ => true
  | String b p', String a s' => Ascii.eqb a b && startswith s' p'
  | String _ _, EmptyString => false
  end.

(** [x in l] for a list of strings. *)
Definition contains (l : list string) (x : string) : bool :=
  existsb (String.eqb x) l.

(** Reading a text file translates the line terminators CR LF and CR
    to LF (universal newlines). *)
Fixpoint universal_newlines (s : string) : string :=
  match s with
  | EmptyString => EmptyString
  | String a s' =>
      if Ascii.eqb a CR then
        String NL
          match s' with
          | String b s'' =>
              if Ascii.eqb b NL then universal_newlines s''
              else universal_newlines s'
          | EmptyString => EmptyString
          end
      else String a (universal_newlines s')
  end.

(** Iterating over a text file yields its lines, each with its
    terminating LF; a last line without terminator is yielded as it
    is. *)
Fixpoint readlines (s : string) : list string :=
  match s with
  | EmptyString => []
  | String a s' =>
      if Ascii.eqb a NL then String a EmptyString :: readlines s'
      else match readlines s' with
           | l :: ls => String a l :: ls
           | [] => [String a EmptyString]
           end
  end.

(** *** Numbers from text

    Texts are sequences of 8-bit characters: the digits and the white
    space outside ASCII that [int] and [float] also accept have no
    counterpart here, and the bound that recent versions put on the
    number of digits of an [int] literal is left out. *)

(** White space accepted around a number by [int] and [float]
    (the ASCII characters for which [str.isspace] holds). *)
Definition isspace (c : ascii) : bool :=
  let n := nat_of_ascii c in
  ((9 <=? n)%nat && (n <=? 13)%nat) || ((28 <=? n)%nat && (n <=? 32)%nat).

Fixpoint lstrip (s : string) : string :=
  match s with
  | EmptyString => EmptyString
  | String a s' => if isspace a then lstrip s' else s
  end.

Definition strip (s : string) : string :=
  String.rev (lstrip (String.rev (lstrip s))).

Definition digit (c : ascii) : option Z :=
  let n := nat_of_ascii c in
  if ((48 <=? n)%nat && (n <=? 57)%nat) then Some (Z.of_nat n - 48)%Z else None.

Definition is_digit (c : ascii) : bool :=
  match digit c with Some _ => true | None => false end.

(** Sign prefix: [(negative, rest)]. *)
Definition read_sign (s : string) : bool * string :=
  match s with
  | String "-" s' => (true, s')
  | String "+" s' => (false, s')
  | _ => (false, s)
  end.

(** Decimal digits of an integer literal: single underscores may
    separate digits; [after_us] holds at the start and after an
    underscore, where a digit must follow. *)
Fixpoint int_digits (after_us : bool) (acc : Z) (s : string) : option Z :=
  match s with
  | EmptyString => if after_us then None else Some acc
  | String c s' =>
      if Ascii.eqb c "_" then
        if after_us then None else int_digits true acc s'
      else match digit c with
           | Some d => int_digits false (10 * acc + d)%Z s'
           | None => None
           end
  end.

(** [int(s)]: [None] stands for [ValueError]. *)
Definition int_of_str (s : string) : option Z :=
  let '(neg, body) := read_sign (strip s) in
  match int_digits true 0%Z body with
  | Some n => Some (if neg then (- n)%Z else n)
  | None => None
  end.

(** Underscores of a float literal are legal only between two digits;
    they are checked and removed before the number is read. *)
Fixpoint remove_underscores (prev : option ascii) (s : string) : option string :=
  match s with
  | EmptyString =>
      match prev with
      | Some "_"%char => None
      | _ => Some EmptyString
      end
  | String c s' =>
      if Ascii.eqb c "_" then
        match prev with
        | Some p => if is_digit p then remove_underscores (Some c) s' else None
        | None => None
        end
      else
        let ok := match prev with
                  | Some "_"%char => is_digit c
                  | _ => true
                  end in
        if ok then
          match remove_underscores (Some c) s' with
          | Some r => Some (String c r)
          | None => None
          end
        else None
  end.

(** Leading run of digits: accumulated value, number of digits read,
    and the rest. *)
Fixpoint read_digits (acc : Z) (s : string) : Z * nat * string :=
  match s with
  | EmptyString => (acc, O, s)
  | String c s' =>
      match digit c with
      | Some d =>
          let '(v, n, r) := read_digits (10 * acc + d)%Z s' in (v, S n, r)
      | None => (acc, O, s)
      end
  end.

Definition lower (c : ascii) : ascii :=
  let n := nat_of_ascii c in
  if ((65 <=? n)%nat && (n <=? 90)%nat) then ascii_of_nat (n + 32) else c.

Fixpoint lower_str (s : string) : string :=
  match s with
  | EmptyString => EmptyString
  | String c s' => String (lower c) (lower_str s')
  end.

(** The binary64 value nearest to [m * 10^e10] for [0 <= m], ties to
    even, overflowing to infinity. *)
Definition decimal_to_float (neg : bool) (m e10 : Z) : float :=
  SF2Prim
    match m with
    | Zpos p =>
        if (0 <=? e10)%Z then
          binary_round prec emax neg (Z.to_pos (m * 10 ^ e10)) 0
        else
          let '(q, e, l) := SFdiv_core_binary prec emax m 0 (10 ^ (- e10)) 0 in
          binary_round_aux prec emax neg q e l
    | _ => S754_zero neg
    end.

(** Optional exponent part of a decimal literal; the literal must end
    after it. *)
Definition read_exponent (s : string) : option Z :=
  match s with
  | EmptyString => Some 0%Z
  | String c s' =>
      if Ascii.eqb (lower c) "e" then
        let '(eneg, s'') := read_sign s' in
        match read_digits 0 s'' with
        | (_, O, _) => None
        | (v, S _, EmptyString) => Some (if eneg then (- v)%Z else v)
        | (_, S _, String _ _) => None
        end
      else None
  end.

(** [float(s)]: [None] stands for [ValueError]. *)
Definition float_of_str (s : string) : option float :=
  match remove_underscores None (strip s) with
  | None => None
  | Some t =>
      let '(neg, body) := read_sign t in
      let word := lower_str body in
      if String.eqb word "inf" || String.eqb word "infinity" then
        Some (if neg then neg_infinity else infinity)
      else if String.eqb word "nan" then Some nan
      else
        let '(ip, ni, r1) := read_digits 0 body in
        let '(m, nf, r2) :=
          match r1 with
          | String "." r => read_digits ip r
          | _ => (ip, O, r1)
          end in
        match (ni + nf)%nat with
        | O => None
        | S _ =>
            match read_exponent r2 with
            | Some e => Some (decimal_to_float neg m (e - Z.of_nat nf))
            | None => None
            end
        end
  end.

(** Conversion of an [int] operand in mixed arithmetic: the nearest
    binary64 value. *)
Definition float_of_int (n : Z) : float :=
  SF2Prim (binary_normalize prec emax n 0 false).

End Py.


(** ** Exceptions, the world, and the monad of the program *)

Inductive exn : Type :=
| IndexError
| KeyError (key : string)
| ValueError
| ZeroDivisionError
| FileNotFoundError (path : string)
| SystemExit (code : Z).

Inductive result (A : Type) : Type :=
| Ok (a : A)
| Raise (e : exn).
Arguments Ok {A} a.
Arguments Raise {A} e.

Definition rbind {A B} (r : result A) (k : A -> result B) : result B :=
  match r with
  | Ok a => k a
  | Raise e => Raise e
  end.

Notation "x <-? r ; k" := (rbind r (fun x => k))
  (at level 100, r at next level, right associativity).

(** [l[i]] on a list: [IndexError] when out of range (the program uses
    non-negative indices only). *)
Definition getitem {A} (l : list A) (i : nat) : result A :=
  match l !! i with
  | Some x => Ok x
  | None => Raise IndexError
  end.

(** [d[k]] on a dict: [KeyError] when the key is absent. *)
Definition dict_get (d : gmap string string) (k : string) : result string :=
  match d !! k with
  | Some v => Ok v
  | None => Raise (KeyError k)
  end.

Definition of_option {A} (e : exn) (o : option A) : result A :=
  match o with
  | Some a => Ok a
  | None => Raise e
  end.

(** [for x in l: acc = f(acc, x)], stopping at the first exception. *)
Fixpoint for_fold {A S} (f : S -> A -> result S) (s : S) (l : list A) : result S :=
  match l with
  | [] => Ok s
  | x :: l' => s' <-? f s x; for_fold f s' l'
  end.

(** [[f(x) for x in l]] built by appending, stopping at the first
    exception. *)
Fixpoint for_map {A B} (f : A -> result B) (l : list A) : result (list B) :=
  match l with
  | [] => Ok []
  | x :: l' => y <-? f x; ys <-? for_map f l'; Ok (y :: ys)
  end.

(** The part of the outside world the program reads and writes: regular
    text files by path, and the lines printed on standard output and on
    standard error. *)
Record world : Type := World {
  fs : gmap string string;
  stdout : list string;
  stderr : list string
}.

(** A command runs in a world and leaves a world, with a value or an
    exception; what was written before an exception stays written. *)
Definition M (A : Type) : Type := world -> world * result A.

Definition ret {A} (a : A) : M A := fun w => (w, Ok a).

Definition bind {A B} (m : M A) (k : A -> M B) : M B :=
  fun w => match m w with
           | (w', Ok a) => k a w'
           | (w', Raise e) => (w', Raise e)
           end.

Definition lift {A} (r : result A) : M A := fun w => (w, r).

Notation "x <- m ;; k" := (bind m (fun x => k))
  (at level 100, m at next level, right associativity).
Notation "m ;; k" := (bind m (fun _ => k))
  (at level 100, right associativity).

(** [print(s)] *)
Definition print (s : string) : M unit :=
  fun w => (World (fs w) (stdout w ++ [s]) (stderr w), Ok tt).

(** [print(s, file=sys.stderr)] *)
Definition eprint (s : string) : M unit :=
  fun w => (World (fs w) (stdout w) (stderr w ++ [s]), Ok tt).

(** [raise] *)
Definition raise {A} (e : exn) : M A := fun w => (w, Raise e).

(** [pathlib.Path(p).is_file()] *)
Definition is_file (p : string) : M bool :=
  fun w => (w, Ok (bool_decide (is_Some (fs w !! p)))).

(** [open(p, 'wt')] followed by writes of [text]: the file is created or
    truncated. *)
Definition write_text (p text : string) : M unit :=
  fun w => (World (<[p := text]> (fs w)) (stdout w) (stderr w), Ok tt).

(** [open(p, 'at')] followed by writes of [text]: the file is created
    when absent, and the text goes after what it holds. *)
Definition append_text (p text : string) : M unit :=
  fun w =>
    (World (<[p := default "" (fs w !! p) +:+ text]> (fs w)) (stdout w) (stderr w),
     Ok tt).

(** [open(p, 'rt')] and iteration over the lines of the file. *)
Definition read_lines (p : string) : M (list string) :=
  fun w => match fs w !! p with
           | Some text => (w, Ok (Py.readlines (Py.universal_newlines text)))
           | None => (w, Raise (FileNotFoundError p))
           end.

(** Values compared by [==] across types in the source. *)
Inductive pyobj : Type :=
| PyStr (s : string)
| PyInt (n : Z).

(** [a == b]: a [str] and an [int] are never equal. *)
Definition py_eq (a b : pyobj) : bool :=
  match a, b with
  | PyStr s, PyStr t => String.eqb s t
  | PyInt m, PyInt n => Z.eqb m n
  | _, _ => false
  end.

(** ** The program *)

Definition tab : string := String Py.TAB EmptyString.
Definition newline : string := String Py.NL EmptyString.

(** *** [process_reference] *)

(** Body of the loop over the lines of the reference file. *)
Definition reference_line (database : gmap string string) (line : string)
  : result (gmap string string) :=
  if Py.startswith line ">" then
    let line := Py.slice_from line 1 in
    let info := Py.split Py.SPACE line in
    id <-? getitem info 0;
    genus <-? getitem info 1;
    epithet <-? getitem info 2;
    let name := genus +:+ " " +:+ epithet in
    Ok (<[id := name]> database)
  else Ok database.

Definition process_reference (refs : string) : M (gmap string string) :=
  lines <- read_lines refs ;;
  lift (for_fold reference_line ∅ lines).

(** *** [line_iterator] *)

(** The [while True] loop of the generator, by fuel: an iteration ends
    the loop when no line break is left, and otherwise yields the text
    between the last break and the next. [None] means that the fuel ran
    out before the loop ended. *)
Fixpoint line_iterator_loop (fuel : nat) (line_breaks : string) (line : Z)
  : option (list string) :=
  match fuel with
  | O => None
  | S fuel' =>
      let nextline := Py.find line_breaks Py.NL (line + 1) in
      if (nextline <? 0)%Z then Some []
      else
        match line_iterator_loop fuel' line_breaks nextline with
        | Some rest => Some (Py.slice line_breaks (line + 1) nextline :: rest)
        | None => None
        end
  end.

(** Every iteration but the last moves past one character at least, so
    one more iteration than the text has characters ends the loop
    ([line_iterator_loop_enough_fuel] below). *)
Definition line_iterator (line_breaks : string) : list string :=
  default [] (line_iterator_loop (S (String.length line_breaks)) line_breaks (-1)).

(** *** [BlastResult] *)

Module BlastResult.

Record t : Type := Build {
  qseqid : string;
  length : Z;
  pident : float;
  query_cov : float
}.

(** [__init__]: the fields are read in the order of the source, so the
    first failing access decides the exception; the float division
    raises on a zero divisor. *)
Definition init (hit_string : string) : result t :=
  let parts := Py.split Py.TAB hit_string in
  qseqid <-? getitem parts 0;
  length_field <-? getitem parts 8;
  length <-? of_option ValueError (Py.int_of_str length_field);
  pident_field <-? getitem parts 9;
  pident <-? of_option ValueError (Py.float_of_str pident_field);
  qseq <-? getitem parts 11;
  let covered := (100 * Py.float_of_int (Py.len qseq))%float in
  qlen_field <-? getitem parts 10;
  qlen <-? of_option ValueError (Py.float_of_str qlen_field);
  if (qlen =? 0)%float then Raise ZeroDivisionError
  else Ok (Build qseqid length pident (covered / qlen)%float).

End BlastResult.

(** *** [get_best_result] *)

(** The variables of the scan over the hits. *)
Record scan : Type := Scan {
  best_match : list string;
  best_cov : float;
  best_pident : float
}.

Definition scan_start : scan := Scan [] 0%float 0%float.

(** [a >= b] on floats. *)
Definition float_ge (a b : float) : bool := (b <=? a)%float.

(** Body of [for hit in blast_hits]. *)
Definition scan_hit (database : gmap string string) (st : scan) (hit : BlastResult.t)
  : result scan :=
  if (BlastResult.length hit <? 1000)%Z then Ok st
  else if float_ge (BlastResult.pident hit) (best_pident st)
          && float_ge (BlastResult.query_cov hit) (best_cov st) then
    let best_pident := BlastResult.pident hit in
    let best_cov := BlastResult.query_cov hit in
    name <-? dict_get database (BlastResult.qseqid hit);
    if Py.contains (best_match st) name then
      Ok (Scan (best_match st) best_cov best_pident)
    else
      name <-? dict_get database (BlastResult.qseqid hit);
      Ok (Scan (best_match st ++ [name]) best_cov best_pident)
  else Ok st.

(** Lines 79 to 92: the scan and its result. *)
Definition select_best (database : gmap string string) (blast_hits : list BlastResult.t)
  : result (list string) :=
  st <-? for_fold (scan_hit database) scan_start blast_hits;
  Ok (best_match st).

(** Lines 76 to 92: the hits are all built before the scan starts. *)
Definition best_of_output (database : gmap string string) (out : string)
  : result (list string) :=
  blast_hits <-? for_map BlastResult.init (line_iterator out);
  select_best database blast_hits.

(** *** [generate_output] and [output] *)

Definition headers : list string :=
  ["Sequence"; "Best_match"; "Problems"; "Extra informations"].

Definition generate_output (outdir : string) : M unit :=
  present <- is_file outdir ;;
  if (present : bool) then ret tt
  else write_text outdir (Py.join tab headers +:+ newline).

(** The summary line and the columns, by the length of the result. *)
Definition output_line (best_match : list string) (inputfile : string)
  : result (string * list string) :=
  if (Z.of_nat (List.length best_match) =? 1)%Z then
    first <-? getitem best_match 0;
    Ok (inputfile +:+ ": " +:+ first, [inputfile; first])
  else if (Z.of_nat (List.length best_match) =? 0)%Z then
    Ok (inputfile +:+ ": " +:+ "Unavailable", [inputfile; "NA"; "Unavailable"])
  else
    first <-? getitem best_match 0;
    Ok (inputfile +:+ ": " +:+ "Multiple results, please check the output file",
        foldl (fun line i => line ++ [i])
              [inputfile; first; "Multiple results"] (drop 1 best_match)).

Definition output (outdir : string) (best_match : list string) (inputfile : string)
  : M unit :=
  r <- lift (output_line best_match inputfile) ;;
  print (fst r) ;;
  append_text outdir (Py.join tab (snd r) +:+ newline).

(** *** The driver *)

Record arguments : Type := Arguments {
  input : list string;
  outdir : string;
  refs : string;
  threads : Z
}.

Section Driver.

(** What the external tools answer: the standard output of the [blastn]
    run for an input file, a reference file and a thread count; whether
    [which] finds a tool; and the line that reports the elapsed time. *)
Variable blastn : string -> string -> Z -> string.
Variable which : string -> bool.
Variable time_report : string.

Fixpoint check_each (dependencies : list string) : M unit :=
  match dependencies with
  | [] => ret tt
  | i :: rest =>
      if which i then check_each rest
      else eprint ("Error: could not find " +:+ i +:+ " tool") ;;
           raise (SystemExit 1)
  end.

Definition check_dependencies : M unit :=
  check_each ["makeblastdb"; "blastn"; "tblastn"].

Definition get_best_result (inputfile refs : string) (threads : Z)
    (database : gmap string string) : M (list string) :=
  let out := blastn inputfile refs threads in
  (if py_eq (PyStr out) (PyInt 0) then
     print ("The sequence file " +:+ inputfile
            +:+ " has no blast hit, please check the fasta file")
   else ret tt) ;;
  lift (best_of_output database out).

(** [for inputfile in args.input] *)
Fixpoint each_input (args : arguments) (database : gmap string string)
    (inputs : list string) : M unit :=
  match inputs with
  | [] => ret tt
  | inputfile :: rest =>
      best_match <- get_best_result inputfile (refs args) (threads args) database ;;
      output (outdir args) best_match inputfile ;;
      each_input args database rest
  end.

Definition main (args : arguments) : M unit :=
  check_dependencies ;;
  database <- process_reference (refs args) ;;
  generate_output (outdir args) ;;
  each_input args database (input args) ;;
  print time_report.

End Driver.

(** ** Definitions that follow the specification

    Each definition below is written from the words of the specification,
    to be compared with the program. *)

Module Spec.

(** Hit Parser: the newline-separated segments of the text, in order,
    without the final fragment that no newline terminates. *)
Definition terminated_segments (text : string) : list string :=
  removelast (Py.split Py.NL text).

(** Reference Index: the content of a header line, after the marker,
    is split on single spaces; token 0 is the key, tokens 1 and 2
    joined by a space are the species name; fewer than 3 tokens is a
    malformed-input error (an [IndexError] in Python). *)
Definition index_header (index : gmap string string) (content : string)
  : result (gmap string string) :=
  match Py.split Py.SPACE content with
  | id :: first :: second :: _ => Ok (<[id := first +:+ " " +:+ second]> index)
  | _ => Raise IndexError
  end.

(** Only header lines are read; the others leave the mapping as it
    is. *)
Definition index_line (index : gmap string string) (line : string)
  : result (gmap string string) :=
  match line with
  | String ">" content => index_header index content
  | _ => Ok index
  end.

Definition reference_index (lines : list string) : result (gmap string string) :=
  for_fold index_line ∅ lines.

(** Best-Match Selector: the running state of the scan. *)
Record state : Type := State {
  best_identity : float;
  best_coverage : float;
  matches : list string
}.

Definition initial : state := State 0 0 [].

Definition short (hit : BlastResult.t) : Prop :=
  (BlastResult.length hit < 1000)%Z.

(** [percent_identity >= best_identity AND query_coverage >= best_coverage] *)
Definition non_regressing (st : state) (hit : BlastResult.t) : Prop :=
  (best_identity st <=? BlastResult.pident hit)%float = true
  /\ (best_coverage st <=? BlastResult.query_cov hit)%float = true.

Definition updated (hit : BlastResult.t) (matches : list string) : state :=
  State (BlastResult.pident hit) (BlastResult.query_cov hit) matches.

(** The single left-to-right scan, one rule per case of step 2, from a
    state, over the hits still to come, to the list returned. *)
Inductive scans_to (index : gmap string string)
  : state -> list BlastResult.t -> list string -> Prop :=
| scan_return st :
    scans_to index st [] (matches st)
| scan_skip st hit hits result :
    short hit ->
    scans_to index st hits result ->
    scans_to index st (hit :: hits) result
| scan_append st hit hits result name :
    ~ short hit ->
    non_regressing st hit ->
    index !! BlastResult.qseqid hit = Some name ->
    name ∉ matches st ->
    scans_to index (updated hit (matches st ++ [name])) hits result ->
    scans_to index st (hit :: hits) result
| scan_present st hit hits result name :
    ~ short hit ->
    non_regressing st hit ->
    index !! BlastResult.qseqid hit = Some name ->
    name ∈ matches st ->
    scans_to index (updated hit (matches st)) hits result ->
    scans_to index st (hit :: hits) result
| scan_discard st hit hits result :
    ~ short hit ->
    ~ non_regressing st hit ->
    scans_to index st hits result ->
    scans_to index st (hit :: hits) result.

(** The hits accepted during the scan, in order: those long enough
    that do not regress on the bests left by the accepted hit before
    them. *)
Fixpoint accepted (identity coverage : float) (hits : list BlastResult.t)
  : list BlastResult.t :=
  match hits with
  | [] => []
  | hit :: rest =>
      if (1000 <=? BlastResult.length hit)%Z
         && (identity <=? BlastResult.pident hit)%float
         && (coverage <=? BlastResult.query_cov hit)%float
      then hit :: accepted (BlastResult.pident hit) (BlastResult.query_cov hit) rest
      else accepted identity coverage rest
  end.

(** A lookup miss: a hit that the scan accepts carries an id that the
    index does not hold. *)
Definition lookup_miss (index : gmap string string) (hits : list BlastResult.t) : Prop :=
  exists hit, hit ∈ accepted 0 0 hits /\ index !! BlastResult.qseqid hit = None.

(** Malformed record: a hit line with fewer than 12 tab-delimited
    fields, or a reference lookup miss for a hit's query id. *)
Definition malformed (index : gmap string string) (out : string) : Prop :=
  (exists line, line ∈ line_iterator out /\ length (Py.split Py.TAB line) < 12)
  \/ (exists hits, for_map BlastResult.init (line_iterator out) = Ok hits
                   /\ lookup_miss index hits).

(** Report Writer: the columns of the row, by case. *)
Definition row (input_file : string) (result : list string) : list string :=
  match result with
  | [] => [input_file; "NA"; "Unavailable"]
  | [species] => [input_file; species]
  | first :: remaining => input_file :: first :: "Multiple results" :: remaining
  end.

(** The printed summary line, by case. *)
Definition summary (input_file : string) (result : list string) : string :=
  match result with
  | [] => input_file +:+ ": Unavailable"
  | [species] => input_file +:+ ": " +:+ species
  | _ => input_file +:+ ": Multiple results, please check the output file"
  end.

(** A row of the table as text: the columns separated by tabs, then a
    newline. *)
Definition row_text (columns : list string) : string :=
  Py.join tab columns +:+ newline.

(** Output Table: the fixed 4-column header. *)
Definition header : list string :=
  ["Sequence"; "Best_match"; "Problems"; "Extra informations"].

(** Each name once, at the place of its first occurrence. *)
Fixpoint first_occurrences (names : list string) : list string :=
  match names with
  | [] => []
  | name :: rest => name :: filter (fun other => other ≠ name) (first_occurrences rest)
  end.

End Spec.

(** ** A scenario for concrete runs

    A reference file of two entries, an aligner that answers one good
    hit for every input file but [bad.fasta], for which it answers a
    line of two fields, and all tools installed. *)

Module Scenario.

Definition reference : string :=
  ">NR_1 Vibrio cholerae strain CECT 514" +:+ newline +:+ "ACGT" +:+ newline
  +:+ ">NR_2 Vibrio mimicus strain ATCC 33653" +:+ newline.

Definition good_hit : string :=
  Py.join tab ["NR_1"; "contig_1"; "1"; "16"; "5"; "20"; "0.0"; "2700";
               "1500"; "99.75"; "16"; "ACGTACGTACGTACGT"] +:+ newline.

Definition bad_hit : string := Py.join tab ["NR_1"; "contig_1"] +:+ newline.

Definition aligner (inputfile refs : string) (threads : Z) : string :=
  if String.eqb inputfile "bad.fasta" then bad_hit else good_hit.

Definition installed (tool : string) : bool := true.

Definition clock : string := "Total time consumed : 0.0h0.0m1.0s".

Definition start : world := World {["reference_database" := reference]} [] [].

Definition database : gmap string string :=
  <["NR_1" := "Vibrio cholerae"]> {["NR_2" := "Vibrio mimicus"]}.

Definition args (inputs : list string) : arguments :=
  Arguments inputs "BS_results.txt" "reference_database" 4.

Definition run (inputs : list string) : world * result unit :=
  main aligner installed clock (args inputs) start.

(** The files after a run that left [rows] under the header. *)
Definition table (rows : string) : gmap string string :=
  <["BS_results.txt" := Spec.row_text Spec.header +:+ rows]>
    {["reference_database" := reference]}.

End Scenario.

(** ** Facts about the string builtins *)

Section StringFacts.

Lemma length_drop n s : String.length (Py.drop n s) = String.length s - n.
Proof.
  revert s; induction n as [|n IH]; intros [|a s]; simpl; try lia.
  apply IH.
Qed.

Lemma drop_drop a b s : Py.drop a (Py.drop b s) = Py.drop (b + a) s.
Proof.
  revert s; induction b as [|b IH]; intros s; simpl; [done|].
  destruct s as [|c s]; [by destruct a|]. apply IH.
Qed.

Lemma drop_all s : Py.drop (String.length s) s = "".
Proof. induction s; simpl; auto. Qed.

Lemma take_append s t : Py.take (String.length s) (s +:+ t) = s.
Proof. induction s; simpl; [by destruct t | by f_equal]. Qed.

Lemma drop_append s t : Py.drop (String.length s) (s +:+ t) = t.
Proof. induction s; simpl; auto. Qed.

Lemma index_of_lt c s k : Py.index_of c s = Some k -> k < String.length s.
Proof.
  revert k; induction s as [|a s IH]; intros k; simpl; [done|].
  destruct (Ascii.eqb a c).
  - intros [= <-]. lia.
  - destruct (Py.index_of c s) as [j|]; [|done].
    intros [= <-]. specialize (IH j eq_refl). lia.
Qed.

Lemma split_not_nil c s : Py.split c s ≠ [].
Proof.
  destruct s as [|a s]; simpl; [done|].
  destruct (Ascii.eqb a c); [done|]. by destruct (Py.split c s).
Qed.

(** Without separator the text is one segment. *)
Lemma split_index_None c s : Py.index_of c s = None -> Py.split c s = [s].
Proof.
  induction s as [|a s IH]; simpl; [done|].
  destruct (Ascii.eqb a c); [done|].
  destruct (Py.index_of c s); [done|]. intros _. by rewrite IH.
Qed.

(** The first separator ends the first segment. *)
Lemma split_index_Some c s k :
  Py.index_of c s = Some k ->
  Py.split c s = Py.take k s :: Py.split c (Py.drop (S k) s).
Proof.
  revert k; induction s as [|a s IH]; intros k; simpl; [done|].
  destruct (Ascii.eqb a c).
  - by intros [= <-].
  - destruct (Py.index_of c s) as [j|]; [|done].
    intros [= <-]. by rewrite (IH j eq_refl).
Qed.

(** A separator in the middle separates the segments of both sides. *)
Lemma split_append_sep c s t :
  Py.split c (s +:+ String c t) = Py.split c s ++ Py.split c t.
Proof.
  induction s as [|a s IH]; simpl.
  - by rewrite Ascii.eqb_refl.
  - destruct (Ascii.eqb a c); [by rewrite IH|].
    rewrite IH. pose proof (split_not_nil c s).
    by destruct (Py.split c s).
Qed.

Lemma find_from c s (p : nat) :
  p <= String.length s ->
  Py.find s c (Z.of_nat p) =
    match Py.index_of c (Py.drop p s) with
    | Some k => Z.of_nat (p + k)
    | None => (-1)%Z
    end.
Proof.
  intros Hp. unfold Py.find, Py.len.
  destruct (Z.ltb_spec (Z.of_nat p) 0); [lia|].
  destruct (Z.ltb_spec (Z.of_nat (String.length s)) (Z.of_nat p)); [lia|].
  rewrite Nat2Z.id. destruct (Py.index_of c (Py.drop p s)); [|done].
  by rewrite Nat2Z.inj_add.
Qed.

Lemma slice_between s (p k : nat) :
  p + k <= String.length s ->
  Py.slice s (Z.of_nat p) (Z.of_nat (p + k)) = Py.take k (Py.drop p s).
Proof.
  intros Hp. unfold Py.slice, Py.adjust_index, Py.len.
  destruct (Z.ltb_spec (Z.of_nat p) 0); [lia|].
  destruct (Z.ltb_spec (Z.of_nat (p + k)) 0); [lia|].
  rewrite !Z.min_l by lia. rewrite Nat2Z.id.
  by replace (Z.to_nat (Z.of_nat (p + k) - Z.of_nat p)) with k by lia.
Qed.

End StringFacts.

(** ** The hit parser's line iterator *)

Section LineIterator.

(** The loop started after position [p - 1] yields the terminated
    segments of the text from [p] on, as soon as the fuel exceeds the
    number of characters left. *)
Lemma line_iterator_loop_from fuel s (p : nat) :
  p <= String.length s ->
  String.length s - p < fuel ->
  line_iterator_loop fuel s (Z.of_nat p - 1) =
    Some (Spec.terminated_segments (Py.drop p s)).
Proof.
  revert p; induction fuel as [|fuel IH]; intros p Hp Hfuel; [lia|].
  simpl. replace (Z.of_nat p - 1 + 1)%Z with (Z.of_nat p) by lia.
  rewrite find_from by done. unfold Spec.terminated_segments.
  destruct (Py.index_of Py.NL (Py.drop p s)) as [k|] eqn:Hk.
  - pose proof (index_of_lt _ _ _ Hk) as Hlt. rewrite length_drop in Hlt.
    destruct (Z.ltb_spec (Z.of_nat (p + k)) 0); [lia|].
    replace (Z.of_nat (p + k)) with (Z.of_nat (S (p + k)) - 1)%Z at 1 by lia.
    rewrite IH by lia.
    rewrite slice_between by lia.
    rewrite (split_index_Some _ _ _ Hk), drop_drop.
    replace (p + S k) with (S (p + k)) by lia.
    unfold Spec.terminated_segments.
    pose proof (split_not_nil Py.NL (Py.drop (S (p + k)) s)).
    by destruct (Py.split Py.NL (Py.drop (S (p + k)) s)).
  - by rewrite (split_index_None _ _ Hk).
Qed.

Lemma line_iterator_loop_enough_fuel s extra :
  line_iterator_loop (S (String.length s) + extra) s (-1) =
    Some (Spec.terminated_segments s).
Proof.
  apply (line_iterator_loop_from _ s 0); lia.
Qed.

Lemma line_iterator_segments s : line_iterator s = Spec.terminated_segments s.
Proof.
  unfold line_iterator.
  pose proof (line_iterator_loop_enough_fuel s 0) as H.
  rewrite Nat.add_0_r in H. by rewrite H.
Qed.

Lemma segments_unterminated body fragment :
  Py.index_of Py.NL fragment = None ->
  Spec.terminated_segments (body +:+ newline +:+ fragment) = Py.split Py.NL body.
Proof.
  intros Hfrag. unfold Spec.terminated_segments.
  change (newline +:+ fragment) with (String Py.NL fragment).
  rewrite split_append_sep, (split_index_None _ _ Hfrag).
  apply removelast_last.
Qed.

(** C2. For every input string, the line iterator yields exactly the
    newline-separated segments of the string in order, without the
    final fragment that no newline terminates: the loop ends with that
    list on any fuel above the length of the text, so the generator is
    total; a text that ends in a fragment without newline yields the
    segments before the fragment only; a text without newline, and the
    empty text among them, yields nothing. *)
Theorem line_iterator_yields_terminated_segments (text : string) :
  (forall extra,
     line_iterator_loop (S (String.length text) + extra) text (-1) =
       Some (Spec.terminated_segments text))
  /\ line_iterator text = Spec.terminated_segments text
  /\ (forall body fragment,
        Py.index_of Py.NL fragment = None ->
        text = body +:+ newline +:+ fragment ->
        line_iterator text = Py.split Py.NL body)
  /\ (Py.index_of Py.NL text = None -> line_iterator text = [])
  /\ line_iterator "" = [].
Proof.
  split; [intros; apply line_iterator_loop_enough_fuel|].
  split; [apply line_iterator_segments|].
  split; [|split; [|done]].
  - intros body fragment Hfrag ->.
    rewrite line_iterator_segments. by apply segments_unterminated.
  - intros Hnone. rewrite line_iterator_segments.
    unfold Spec.terminated_segments. by rewrite (split_index_None _ _ Hnone).
Qed.

Lemma line_iterator_yields_terminated_segments_witness :
  Py.index_of Py.NL "cut" = None
  /\ line_iterator ("one" +:+ newline +:+ "two" +:+ newline +:+ "cut") = ["one"; "two"].
Proof.
  split; [reflexivity|].
  exact (proj1 (proj2 (proj2
    (line_iterator_yields_terminated_segments
       ("one" +:+ newline +:+ "two" +:+ newline +:+ "cut"))))
    ("one" +:+ newline +:+ "two") "cut" eq_refl eq_refl).
Defined.

End LineIterator.

(** ** The reference index *)

Section ReferenceIndex.

Implicit Types (database : gmap string string) (line : string).

Lemma startswith_char c content (m : ascii) :
  Py.startswith (String c content) (String m "") = Ascii.eqb c m.
Proof. simpl. by rewrite andb_true_r. Qed.

Lemma slice_from_1 c content : Py.slice_from (String c content) 1 = content.
Proof.
  unfold Py.slice_from, Py.adjust_index, Py.len.
  change (1 <? 0)%Z with false. cbv iota.
  by replace (Z.to_nat (1 `min` Z.of_nat (String.length (String c content))))
    with 1 by (simpl; lia).
Qed.

Lemma reference_line_index_line database line :
  reference_line database line = Spec.index_line database line.
Proof.
  unfold reference_line, Spec.index_line.
  destruct line as [|c content]; [done|].
  rewrite startswith_char, slice_from_1.
  destruct (Ascii.eqb_spec c ">") as [->|Hc].
  - unfold Spec.index_header.
    by destruct (Py.split Py.SPACE content) as [|id [|first [|second rest]]].
  - destruct c as [[] [] [] [] [] [] [] []]; try done.
Qed.

Lemma for_fold_ext {A S} (f g : S -> A -> result S) s l :
  (forall s x, f s x = g s x) -> for_fold f s l = for_fold g s l.
Proof.
  intros Hfg. revert s; induction l as [|x l IH]; intros s; simpl; [done|].
  rewrite Hfg. destruct (g s x); simpl; auto.
Qed.

(** C8. For every reference file, the index is the one the
    specification describes: only lines that begin with the marker are
    read; the marker is dropped and the rest split on single spaces;
    token 0 is the key and tokens 1 and 2 joined by one space are the
    species name; a header with fewer than 3 tokens is an error; other
    lines leave the mapping unchanged. *)
Theorem process_reference_builds_index (refs text : string) (w : world) :
  fs w !! refs = Some text ->
  process_reference refs w =
    (w, Spec.reference_index (Py.readlines (Py.universal_newlines text))).
Proof.
  intros Hfile. unfold process_reference, bind, read_lines, lift.
  rewrite Hfile. f_equal. unfold Spec.reference_index.
  apply for_fold_ext, reference_line_index_line.
Qed.

Lemma process_reference_builds_index_witness :
  let text := ">X Escherichia coli K12" +:+ newline +:+ "ACGT" +:+ newline in
  let w := World {["ref.fa" := text]} [] [] in
  fs w !! "ref.fa" = Some text
  /\ process_reference "ref.fa" w = (w, Ok {["X" := "Escherichia coli"]}).
Proof.
  intros text w. split; [reflexivity|].
  exact (eq_trans (process_reference_builds_index "ref.fa" text w eq_refl) eq_refl).
Defined.

(** *** The line terminator in the species name *)

Lemma index_of_cons_None c a s :
  Py.index_of c (String a s) = None <-> a ≠ c /\ Py.index_of c s = None.
Proof.
  simpl. destruct (Ascii.eqb_spec a c) as [->|Hne].
  - split; [done|]. by intros [? _].
  - destruct (Py.index_of c s); split; try done; by intros [_ ?].
Qed.

Lemma index_of_append_None c s t :
  Py.index_of c (s +:+ t) = None <->
  Py.index_of c s = None /\ Py.index_of c t = None.
Proof.
  induction s as [|a s IH].
  - simpl. tauto.
  - change (String a s +:+ t) with (String a (s +:+ t)).
    rewrite !index_of_cons_None, IH. tauto.
Qed.

(** Text without separator appended to a text extends its last
    token. *)
Lemma split_append_tail c s t :
  Py.index_of c t = None ->
  exists init lst,
    Py.split c s = init ++ [lst] /\ Py.split c (s +:+ t) = init ++ [lst +:+ t].
Proof.
  intros Ht. induction s as [|a s (init & lst & Hs & Hst)].
  - exists [], "". split; [done|].
    change ("" +:+ t) with t. by rewrite (split_index_None _ _ Ht).
  - change (String a s +:+ t) with (String a (s +:+ t)). simpl.
    destruct (Ascii.eqb a c).
    + exists ("" :: init), lst. by rewrite Hs, Hst.
    + rewrite Hs, Hst. destruct init as [|x init]; simpl.
      * by exists [], (String a lst).
      * by exists (String a x :: init), lst.
Qed.

(** A character absent from a text is absent from its tokens. *)
Lemma split_tokens_free c d s :
  Py.index_of d s = None ->
  Forall (fun t => Py.index_of d t = None) (Py.split c s).
Proof.
  induction s as [|a s IH].
  - intros _. by constructor.
  - intros [Had Hs]%index_of_cons_None. specialize (IH Hs). simpl.
    destruct (Ascii.eqb a c); [by constructor|].
    destruct (Py.split c s) as [|x xs].
    + constructor; [|done]. by rewrite index_of_cons_None.
    + inversion_clear IH. constructor; [|done]. by rewrite index_of_cons_None.
Qed.

(** C10. For every header line that a newline terminates: with exactly
    three space-separated tokens the line is accepted and the species
    name stored ends with that newline, since the terminator stays in
    token 2; with four tokens or more the name stored holds no
    newline; with fewer than three nothing is stored. So among such
    lines only those with four tokens or more give a name free of
    newline. *)
Theorem three_token_header_keeps_newline
    (database : gmap string string) (body : string) :
  Py.index_of Py.NL body = None ->
  let line := ">" +:+ body +:+ newline in
  let tokens := Py.split Py.SPACE (body +:+ newline) in
  (length tokens = 3 ->
     exists id genus stem,
       tokens = [id; genus; stem +:+ newline]
       /\ reference_line database line =
            Ok (<[id := genus +:+ " " +:+ stem +:+ newline]> database))
  /\ (4 <= length tokens ->
        exists id genus epithet rest,
          tokens = id :: genus :: epithet :: rest
          /\ reference_line database line =
               Ok (<[id := genus +:+ " " +:+ epithet]> database)
          /\ Py.index_of Py.NL (genus +:+ " " +:+ epithet) = None)
  /\ (length tokens < 3 -> reference_line database line = Raise IndexError).
Proof.
  intros Hbody line tokens.
  assert (Hline : reference_line database line = Spec.index_header database (body +:+ newline))
    by apply reference_line_index_line.
  rewrite Hline. unfold Spec.index_header. fold tokens.
  destruct (split_append_tail Py.SPACE body newline eq_refl) as (init & lst & Hs & Hst).
  pose proof (split_tokens_free Py.SPACE Py.NL body Hbody) as Hfree.
  fold tokens in Hst. rewrite Hs in Hfree. rewrite Hst. clear Hst Hs Hline.
  split; [|split].
  - intros Hlen. destruct init as [|id [|genus [|? ?]]]; simpl in Hlen; try lia.
    2: { rewrite length_app in Hlen. simpl in Hlen. lia. }
    by exists id, genus, lst.
  - intros Hlen. destruct init as [|id [|genus [|epithet rest]]]; simpl in Hlen; try lia.
    exists id, genus, epithet, (rest ++ [lst +:+ newline]). split; [done|]. split; [done|].
    inversion_clear Hfree as [|? ? _ Hfree']. inversion_clear Hfree' as [|? ? Hg Hfree''].
    inversion_clear Hfree'' as [|? ? He _].
    rewrite !index_of_append_None. by repeat split.
  - intros Hlen. destruct init as [|id [|genus [|? ?]]]; simpl in Hlen; try done; lia.
Qed.

Lemma three_token_header_keeps_newline_witness :
  Py.index_of Py.NL "NR_1 Vibrio cholerae" = None
  /\ reference_line ∅ (">" +:+ "NR_1 Vibrio cholerae" +:+ newline) =
       Ok {["NR_1" := "Vibrio cholerae" +:+ newline]}.
Proof.
  split; [reflexivity|].
  destruct (proj1 (three_token_header_keeps_newline ∅ "NR_1 Vibrio cholerae" eq_refl)
              eq_refl)
    as (id & genus & stem & Htokens & Hline).
  injection Htokens as <- <- Hstem.
  rewrite Hline, <- Hstem. reflexivity.
Defined.

(** A header line that ends the file without terminator stores a name
    without newline whatever its number of tokens. *)
Example final_header_without_newline :
  reference_line ∅ ">NR_1 Vibrio cholerae" = Ok {["NR_1" := "Vibrio cholerae"]}.
Proof. reflexivity. Qed.

End ReferenceIndex.

(** ** The best-match scan *)

Section BestMatch.

Implicit Types (database : gmap string string) (hit : BlastResult.t)
  (hits : list BlastResult.t) (st : scan).

Lemma contains_elem_of (l : list string) x : Py.contains l x = true <-> x ∈ l.
Proof.
  unfold Py.contains. induction l as [|y l IH]; simpl.
  - split; [done|]. by intros ?%elem_of_nil.
  - rewrite orb_true_iff, IH, String.eqb_eq, elem_of_cons. tauto.
Qed.

Lemma contains_not_elem_of (l : list string) x : Py.contains l x = false <-> x ∉ l.
Proof.
  rewrite <- contains_elem_of. by destruct (Py.contains l x).
Qed.

(** The three outcomes of one iteration. *)
Lemma scan_hit_short database st hit :
  (BlastResult.length hit < 1000)%Z -> scan_hit database st hit = Ok st.
Proof.
  intros Hshort. unfold scan_hit.
  by destruct (Z.ltb_spec (BlastResult.length hit) 1000); [|lia].
Qed.

Lemma scan_hit_regress database st hit :
  (1000 <= BlastResult.length hit)%Z ->
  (best_pident st <=? BlastResult.pident hit)%float
    && (best_cov st <=? BlastResult.query_cov hit)%float = false ->
  scan_hit database st hit = Ok st.
Proof.
  intros Hlong Hreg. unfold scan_hit, float_ge.
  destruct (Z.ltb_spec (BlastResult.length hit) 1000); [lia|]. by rewrite Hreg.
Qed.

Lemma scan_hit_accept database st hit :
  (1000 <= BlastResult.length hit)%Z ->
  (best_pident st <=? BlastResult.pident hit)%float
    && (best_cov st <=? BlastResult.query_cov hit)%float = true ->
  scan_hit database st hit =
    match database !! BlastResult.qseqid hit with
    | Some name =>
        Ok (Scan (if Py.contains (best_match st) name then best_match st
                  else best_match st ++ [name])
                 (BlastResult.query_cov hit) (BlastResult.pident hit))
    | None => Raise (KeyError (BlastResult.qseqid hit))
    end.
Proof.
  intros Hlong Hacc. unfold scan_hit, float_ge, dict_get.
  destruct (Z.ltb_spec (BlastResult.length hit) 1000); [lia|]. rewrite Hacc.
  destruct (database !! BlastResult.qseqid hit) as [name|]; [|done]. simpl.
  by destruct (Py.contains (best_match st) name).
Qed.

(** The loop of the program from any state is the scan of the
    specification from the same state. *)
Lemma scan_loop_scans_to database hits matches coverage identity result :
  (exists st', for_fold (scan_hit database) (Scan matches coverage identity) hits = Ok st'
               /\ best_match st' = result)
  <-> Spec.scans_to database (Spec.State identity coverage matches) hits result.
Proof.
  revert matches coverage identity.
  induction hits as [|hit hits IH]; intros matches coverage identity.
  - simpl. split.
    + intros (st' & [= <-] & <-). apply (Spec.scan_return _ (Spec.State _ _ _)).
    + inversion 1; subst. eexists; split; reflexivity.
  - simpl.
    destruct (Z.lt_ge_cases (BlastResult.length hit) 1000) as [Hshort|Hlong].
    { rewrite scan_hit_short by done. simpl. rewrite IH. split.
      - by apply Spec.scan_skip.
      - inversion_clear 1; try done; by unfold Spec.short in *. }
    assert (Hns : ~ Spec.short hit) by (unfold Spec.short; lia).
    destruct ((identity <=? BlastResult.pident hit)%float
              && (coverage <=? BlastResult.query_cov hit)%float) eqn:Hacc.
    2: { rewrite scan_hit_regress by done. simpl. rewrite IH.
         assert (Hnr : ~ Spec.non_regressing (Spec.State identity coverage matches) hit).
         { unfold Spec.non_regressing. simpl. intros [H1 H2].
           by rewrite H1, H2 in Hacc. }
         split.
         - by apply Spec.scan_discard.
         - inversion_clear 1; done. }
    rewrite scan_hit_accept by done. simpl.
    assert (Hnr : Spec.non_regressing (Spec.State identity coverage matches) hit).
    { unfold Spec.non_regressing. simpl. by apply andb_true_iff in Hacc. }
    destruct (database !! BlastResult.qseqid hit) as [name|] eqn:Hname; simpl.
    + destruct (Py.contains matches name) eqn:Hin; rewrite IH.
      * apply contains_elem_of in Hin. split.
        -- by apply (Spec.scan_present _ (Spec.State _ _ _) _ _ _ name).
        -- inversion_clear 1; try done; simpl in *; by simplify_eq.
      * apply contains_not_elem_of in Hin. split.
        -- by apply (Spec.scan_append _ (Spec.State _ _ _) _ _ _ name).
        -- inversion_clear 1; try done; simpl in *; by simplify_eq.
    + split; [by intros (? & ? & _)|].
      inversion_clear 1; try done; simpl in *; by simplify_eq.
Qed.

(** The scan raises on a missing key only. *)
Lemma scan_loop_total database hits :
  (forall hit, hit ∈ hits -> is_Some (database !! BlastResult.qseqid hit)) ->
  forall st, exists st', for_fold (scan_hit database) st hits = Ok st'.
Proof.
  induction hits as [|hit hits IH]; intros Hkeys st; simpl; [by eexists|].
  assert (exists st1, scan_hit database st hit = Ok st1) as [st1 ->].
  { destruct (Hkeys hit) as [name Hname]; [by left|].
    unfold scan_hit, dict_get. rewrite Hname. simpl.
    repeat case_match; by eexists. }
  simpl. apply IH. intros h Hh. apply Hkeys. by right.
Qed.

(** C1. For every sequence of hit records and every reference index,
    the selector returns a list exactly when the single left-to-right
    scan of the specification, started from best identity 0.0, best
    coverage 0.0 and no match, produces that list: short hits are
    skipped, a hit that regresses on neither best updates both bests
    and appends its resolved name unless the name is present, other
    hits change nothing, and the matches are returned. The selector
    does return whenever the index resolves the hits. *)
Theorem select_best_is_the_scan database hits :
  (forall result,
     select_best database hits = Ok result
     <-> Spec.scans_to database Spec.initial hits result)
  /\ ((forall hit, hit ∈ hits -> is_Some (database !! BlastResult.qseqid hit)) ->
      exists result, select_best database hits = Ok result).
Proof.
  split.
  - intros result. unfold Spec.initial.
    rewrite <- scan_loop_scans_to. unfold select_best, scan_start.
    destruct (for_fold _ _ _) as [st'|e]; simpl.
    + split; [intros [= <-]; by eexists|]. by intros (? & [= <-] & <-).
    + split; [done|]. by intros (? & ? & _).
  - intros Hkeys. unfold select_best.
    destruct (scan_loop_total database hits Hkeys scan_start) as [st' ->].
    by eexists.
Qed.

Lemma select_best_is_the_scan_witness :
  let database : gmap string string := <["X" := "Species A"]> {["Y" := "Species B"]} in
  let hits := [BlastResult.Build "X" 1200 99.5 98; BlastResult.Build "Y" 1300 99.5 99] in
  (forall hit, hit ∈ hits -> is_Some (database !! BlastResult.qseqid hit))
  /\ (exists result, select_best database hits = Ok result)
  /\ Spec.scans_to database Spec.initial hits ["Species A"; "Species B"].
Proof.
  intros database hits.
  assert (Hkeys : forall hit, hit ∈ hits -> is_Some (database !! BlastResult.qseqid hit)).
  { intros hit [->|[->|[]%elem_of_nil]%elem_of_cons]%elem_of_cons; eexists; reflexivity. }
  split; [exact Hkeys|]. split.
  - exact (proj2 (select_best_is_the_scan database hits) Hkeys).
  - apply (proj1 (select_best_is_the_scan database hits)). reflexivity.
Defined.

(** *** Distinct names, in the order of acceptance *)

Lemma first_occurrences_NoDup (names : list string) :
  NoDup (Spec.first_occurrences names).
Proof.
  induction names as [|name names IH]; simpl; [constructor|].
  apply NoDup_cons. split.
  - rewrite list_elem_of_filter. by intros [? _].
  - by apply NoDup_filter.
Qed.

Lemma filter_not_elem_of_nil (l : list string) : filter (.∉ []) l = l.
Proof.
  induction l as [|x l IH]; [done|].
  rewrite filter_cons_True by apply not_elem_of_nil. by rewrite IH.
Qed.

Lemma accepted_cons_short identity coverage hit hits :
  (BlastResult.length hit < 1000)%Z ->
  Spec.accepted identity coverage (hit :: hits) = Spec.accepted identity coverage hits.
Proof.
  intros Hshort. simpl.
  by destruct (Z.leb_spec 1000 (BlastResult.length hit)); [lia|].
Qed.

Lemma accepted_cons_long identity coverage hit hits :
  (1000 <= BlastResult.length hit)%Z ->
  Spec.accepted identity coverage (hit :: hits) =
    if (identity <=? BlastResult.pident hit)%float
       && (coverage <=? BlastResult.query_cov hit)%float
    then hit :: Spec.accepted (BlastResult.pident hit) (BlastResult.query_cov hit) hits
    else Spec.accepted identity coverage hits.
Proof.
  intros Hlong. simpl.
  by destruct (Z.leb_spec 1000 (BlastResult.length hit)); [|lia].
Qed.

(** From a state whose matches are distinct, the loop appends, to the
    matches it starts with, the names of the accepted hits that are
    new, each once, in the order of first acceptance. *)
Lemma scan_loop_first_occurrences database hits :
  forall seen coverage identity st',
    for_fold (scan_hit database) (Scan seen coverage identity) hits = Ok st' ->
    exists names,
      Forall2 (fun hit name => database !! BlastResult.qseqid hit = Some name)
              (Spec.accepted identity coverage hits) names
      /\ best_match st' = seen ++ filter (.∉ seen) (Spec.first_occurrences names).
Proof.
  induction hits as [|hit hits IH]; intros seen coverage identity st'.
  - simpl. intros [= <-]. exists []. split; [constructor|]. simpl.
    by rewrite filter_nil, app_nil_r.
  - simpl for_fold.
    destruct (Z.lt_ge_cases (BlastResult.length hit) 1000) as [Hshort|Hlong].
    { rewrite scan_hit_short, accepted_cons_short by done. apply IH. }
    rewrite accepted_cons_long by done.
    destruct ((identity <=? BlastResult.pident hit)%float
              && (coverage <=? BlastResult.query_cov hit)%float) eqn:Hacc.
    2: { rewrite scan_hit_regress by done. apply IH. }
    rewrite scan_hit_accept by done. simpl best_match.
    destruct (database !! BlastResult.qseqid hit) as [name|] eqn:Hname; [|done].
    simpl rbind. intros Hloop.
    destruct (IH _ _ _ _ Hloop) as (names & Hnames & Hresult).
    exists (name :: names). split; [by constructor|].
    rewrite Hresult. simpl Spec.first_occurrences.
    destruct (Py.contains seen name) eqn:Hin.
    + apply contains_elem_of in Hin.
      rewrite filter_cons_False by (intros Hnot; by apply Hnot).
      rewrite list_filter_filter_l; [done|]. intros x Hx ->. by apply Hx.
    + apply contains_not_elem_of in Hin.
      rewrite filter_cons_True by done.
      rewrite <- app_assoc. simpl. do 2 f_equal.
      rewrite list_filter_filter. apply list_filter_iff. intros x.
      rewrite not_elem_of_app, not_elem_of_cons. pose proof (not_elem_of_nil x). tauto.
Qed.

Lemma best_match_names database hits result :
  select_best database hits = Ok result ->
  exists names,
    Forall2 (fun hit name => database !! BlastResult.qseqid hit = Some name)
            (Spec.accepted 0 0 hits) names
    /\ result = Spec.first_occurrences names.
Proof.
  unfold select_best, scan_start.
  destruct (for_fold _ _ _) as [st'|e] eqn:Hloop; simpl; [|done].
  intros [= <-].
  destruct (scan_loop_first_occurrences _ _ _ _ _ _ Hloop) as (names & Hnames & Hresult).
  simpl in Hresult. rewrite filter_not_elem_of_nil in Hresult.
  by exists names.
Qed.

(** C9. For every sequence of hit records, the result holds no name
    twice, and it lists the names of the accepted hits at the place of
    their first acceptance in the scan: the order is the order of the
    hits, whatever their scores. *)
Theorem best_match_distinct_in_acceptance_order database hits result :
  select_best database hits = Ok result ->
  NoDup result
  /\ exists names,
       Forall2 (fun hit name => database !! BlastResult.qseqid hit = Some name)
               (Spec.accepted 0 0 hits) names
       /\ result = Spec.first_occurrences names.
Proof.
  intros (names & Hnames & ->)%best_match_names.
  split; [apply first_occurrences_NoDup|]. by exists names.
Qed.

(** The hit of the second name scores higher on both measures than
    the hit of the first, and the first name is accepted again later
    with the highest scores: the names stay in the order of first
    acceptance. *)
Lemma best_match_distinct_in_acceptance_order_witness :
  let database : gmap string string := <["X" := "Species A"]> {["Y" := "Species B"]} in
  let hits := [BlastResult.Build "X" 1200 99.5 98;
               BlastResult.Build "Y" 1300 99.75 99;
               BlastResult.Build "X" 1400 100 100] in
  select_best database hits = Ok ["Species A"; "Species B"]
  /\ NoDup ["Species A"; "Species B"].
Proof.
  intros database hits. split; [reflexivity|].
  exact (proj1 (best_match_distinct_in_acceptance_order database hits
                  ["Species A"; "Species B"] eq_refl)).
Defined.

End BestMatch.

(** ** The hit record *)

Section HitRecord.

(** C7. For every hit line that parses, the coverage is 100.0 times
    the length of the aligned query sequence field (field 11), divided
    by the query length field (field 10) read as a float, in binary64
    arithmetic and with no clamping; on some lines it exceeds 100. *)
Theorem query_cov_is_unclamped_ratio :
  (forall hit_string hit,
     BlastResult.init hit_string = Ok hit ->
     exists qseq qlen_field qlen,
       Py.split Py.TAB hit_string !! 11 = Some qseq
       /\ Py.split Py.TAB hit_string !! 10 = Some qlen_field
       /\ Py.float_of_str qlen_field = Some qlen
       /\ BlastResult.query_cov hit =
            (100 * Py.float_of_int (Py.len qseq) / qlen)%float)
  /\ (exists hit_string hit,
        BlastResult.init hit_string = Ok hit
        /\ (100 <? BlastResult.query_cov hit)%float = true).
Proof.
  split.
  - intros hit_string hit. unfold BlastResult.init, getitem.
    destruct (Py.split Py.TAB hit_string !! 0); [|done]. simpl.
    destruct (Py.split Py.TAB hit_string !! 8) as [length_field|]; [|done]. simpl.
    destruct (Py.int_of_str length_field); [|done]. simpl.
    destruct (Py.split Py.TAB hit_string !! 9) as [pident_field|]; [|done]. simpl.
    destruct (Py.float_of_str pident_field); [|done]. simpl.
    destruct (Py.split Py.TAB hit_string !! 11) as [qseq|]; [|done]. simpl.
    destruct (Py.split Py.TAB hit_string !! 10) as [qlen_field|]; [|done]. simpl.
    destruct (Py.float_of_str qlen_field) as [qlen|] eqn:Hqlen; [|done]. simpl.
    destruct (qlen =? 0)%float; [done|].
    intros [= <-]. by exists qseq, qlen_field, qlen.
  - exists (Py.join tab ["NR_1"; "contig"; "1"; "11"; "5"; "15"; "1e-30"; "2000";
                         "1200"; "99.75"; "10"; "ACGTACGTACG"]).
    exists (BlastResult.Build "NR_1" 1200 99.75 110). split; reflexivity.
Qed.

Lemma query_cov_is_unclamped_ratio_witness :
  let hit_string :=
    Py.join tab ["NR_1"; "contig"; "1"; "12"; "5"; "16"; "0.0"; "2700";
                 "1500"; "99.75"; "16"; "ACGTACGTACGT"] in
  let hit := BlastResult.Build "NR_1" 1500 99.75 75 in
  BlastResult.init hit_string = Ok hit
  /\ exists qseq qlen_field qlen,
       Py.split Py.TAB hit_string !! 11 = Some qseq
       /\ Py.split Py.TAB hit_string !! 10 = Some qlen_field
       /\ Py.float_of_str qlen_field = Some qlen
       /\ BlastResult.query_cov hit =
            (100 * Py.float_of_int (Py.len qseq) / qlen)%float.
Proof.
  intros hit_string hit. split; [reflexivity|].
  exact (proj1 query_cov_is_unclamped_ratio hit_string hit eq_refl).
Defined.

(** A line with fewer than 12 fields raises. *)
Lemma init_short_line_raises hit_string :
  length (Py.split Py.TAB hit_string) < 12 ->
  exists e, BlastResult.init hit_string = Raise e.
Proof.
  intros Hshort. unfold BlastResult.init, getitem.
  rewrite (lookup_ge_None_2 _ 11) by lia.
  repeat (match goal with
          | |- context [rbind (match ?o with _ => _ end) _] => destruct o; simpl
          | |- context [rbind (of_option _ ?o) _] => destruct o; simpl
          end; try by eexists).
Qed.

End HitRecord.

(** ** The report writer *)

Section ReportWriter.

Implicit Types (w : world) (outdir inputfile : string) (best_match : list string).

Lemma foldl_append_each (line rest : list string) :
  foldl (fun line i => line ++ [i]) line rest = line ++ rest.
Proof.
  revert line; induction rest as [|i rest IH]; intros line; simpl.
  - by rewrite app_nil_r.
  - by rewrite IH, <- app_assoc.
Qed.

(** The branches of [output] build the summary and the columns of the
    specification. *)
Lemma output_line_row best_match inputfile :
  output_line best_match inputfile =
    Ok (Spec.summary inputfile best_match, Spec.row inputfile best_match).
Proof.
  unfold output_line.
  destruct best_match as [|first [|second remaining]]; try done.
  destruct (Z.eqb_spec (Z.of_nat (length (first :: second :: remaining))) 1);
    [simpl length in *; lia|].
  destruct (Z.eqb_spec (Z.of_nat (length (first :: second :: remaining))) 0);
    [simpl length in *; lia|].
  simpl. by rewrite foldl_append_each.
Qed.

(** What [output] does to the world. *)
Lemma output_effect outdir best_match inputfile w :
  output outdir best_match inputfile w =
    (World (<[outdir := default "" (fs w !! outdir)
                        +:+ Spec.row_text (Spec.row inputfile best_match)]> (fs w))
           (stdout w ++ [Spec.summary inputfile best_match])
           (stderr w),
     Ok tt).
Proof.
  unfold output, bind, lift. by rewrite output_line_row.
Qed.

(** C5. For every result and input-file identifier, the report writer
    prints the summary line of the case and appends to the table one
    row, the columns joined by tabs and closed by a newline, whose
    columns are [input-file, NA, Unavailable] for an empty result,
    [input-file, species-name] for one name, and [input-file, first
    name, Multiple results, remaining names ...] for more; nothing
    else changes and no exception is raised. *)
Theorem output_appends_one_row outdir best_match inputfile w :
  output outdir best_match inputfile w =
    (World (<[outdir := default "" (fs w !! outdir)
                        +:+ Py.join tab (Spec.row inputfile best_match) +:+ newline]>
              (fs w))
           (stdout w ++ [Spec.summary inputfile best_match])
           (stderr w),
     Ok tt)
  /\ (best_match = [] ->
      Spec.row inputfile best_match = [inputfile; "NA"; "Unavailable"]
      /\ Spec.summary inputfile best_match = inputfile +:+ ": Unavailable")
  /\ (forall species, best_match = [species] ->
      Spec.row inputfile best_match = [inputfile; species]
      /\ Spec.summary inputfile best_match = inputfile +:+ ": " +:+ species)
  /\ (forall first second remaining, best_match = first :: second :: remaining ->
      Spec.row inputfile best_match =
        [inputfile; first; "Multiple results"] ++ second :: remaining
      /\ Spec.summary inputfile best_match =
           inputfile +:+ ": Multiple results, please check the output file").
Proof.
  split; [apply output_effect|].
  split; [by intros ->|]. split; [by intros ? ->|]. by intros ??? ->.
Qed.

Lemma output_appends_one_row_witness :
  let w := World {["BS_results.txt" := Spec.row_text Spec.header]} [] [] in
  output "BS_results.txt" ["Vibrio cholerae"; "Vibrio mimicus"; "Vibrio metoecus"]
         "sample.fasta" w =
    (World {["BS_results.txt" :=
               Spec.row_text Spec.header
               +:+ Spec.row_text ["sample.fasta"; "Vibrio cholerae"; "Multiple results";
                                  "Vibrio mimicus"; "Vibrio metoecus"]]}
           ["sample.fasta: Multiple results, please check the output file"] [],
     Ok tt).
Proof.
  intros w.
  exact (eq_trans
           (proj1 (output_appends_one_row "BS_results.txt"
                     ["Vibrio cholerae"; "Vibrio mimicus"; "Vibrio metoecus"]
                     "sample.fasta" w))
           eq_refl).
Defined.

(** Columns without tab or newline make one line of the table, and the
    line reads back as the columns. *)
Lemma split_join_columns (columns : list string) :
  columns ≠ [] ->
  Forall (fun column => Py.index_of Py.TAB column = None) columns ->
  Py.split Py.TAB (Py.join tab columns) = columns.
Proof.
  intros Hne Hfree. induction Hfree as [|x l Hx Hl IH]; [done|].
  destruct l as [|y l]; [simpl; by apply split_index_None|].
  change (Py.join tab (x :: y :: l)) with (x +:+ String Py.TAB (Py.join tab (y :: l))).
  rewrite split_append_sep, IH by done. by rewrite (split_index_None _ _ Hx).
Qed.

Lemma join_free (c : ascii) (columns : list string) :
  c ≠ Py.TAB ->
  Forall (fun column => Py.index_of c column = None) columns ->
  Py.index_of c (Py.join tab columns) = None.
Proof.
  intros Hc Hfree. induction Hfree as [|x l Hx Hl IH]; [done|].
  destruct l as [|y l]; [done|].
  change (Py.join tab (x :: y :: l)) with (x +:+ String Py.TAB (Py.join tab (y :: l))).
  rewrite index_of_append_None, index_of_cons_None. by repeat split.
Qed.

Lemma row_text_is_one_line (columns : list string) :
  Forall (fun column => Py.index_of Py.NL column = None) columns ->
  Spec.terminated_segments (Spec.row_text columns) = [Py.join tab columns].
Proof.
  intros Hfree. unfold Spec.row_text.
  change (Py.join tab columns +:+ newline)
    with (Py.join tab columns +:+ newline +:+ "").
  rewrite segments_unterminated by done.
  by apply split_index_None, join_free.
Qed.

(** *** The header of the table *)

Lemma generate_output_present outdir w :
  is_Some (fs w !! outdir) -> generate_output outdir w = (w, Ok tt).
Proof.
  intros Hfile. unfold generate_output, bind, is_file.
  by rewrite bool_decide_eq_true_2.
Qed.

Lemma generate_output_absent outdir w :
  fs w !! outdir = None ->
  generate_output outdir w =
    (World (<[outdir := Spec.row_text Spec.header]> (fs w)) (stdout w) (stderr w), Ok tt).
Proof.
  intros Hfile. unfold generate_output, bind, is_file.
  rewrite bool_decide_eq_false_2; [done|]. rewrite Hfile. by intros [? ?].
Qed.

(** C6. Creation of the output table leaves an existing file as it is
    and writes the 4-column header line only when the file does not
    exist, so a second creation changes nothing; the report writer run
    on an existing table leaves what the table holds in place and adds
    its row after it, with no header. *)
Theorem header_written_once outdir w :
  (is_Some (fs w !! outdir) -> generate_output outdir w = (w, Ok tt))
  /\ (fs w !! outdir = None ->
      generate_output outdir w =
        (World (<[outdir := Py.join tab Spec.header +:+ newline]> (fs w))
               (stdout w) (stderr w), Ok tt))
  /\ generate_output outdir (fst (generate_output outdir w)) =
       (fst (generate_output outdir w), Ok tt)
  /\ (forall content best_match inputfile,
        fs w !! outdir = Some content ->
        fs (fst (bind (generate_output outdir)
                      (fun _ => output outdir best_match inputfile) w)) !! outdir =
          Some (content +:+ Spec.row_text (Spec.row inputfile best_match))).
Proof.
  split; [apply generate_output_present|].
  split; [apply generate_output_absent|]. split.
  - apply generate_output_present.
    destruct (fs w !! outdir) as [content|] eqn:Hfile.
    + rewrite generate_output_present by (by rewrite Hfile). simpl. by rewrite Hfile.
    + rewrite generate_output_absent by done. simpl. by rewrite lookup_insert_eq.
  - intros content best_match inputfile Hfile. unfold bind at 1.
    rewrite generate_output_present by (by rewrite Hfile).
    rewrite output_effect. simpl. by rewrite lookup_insert_eq, Hfile.
Qed.

Lemma header_written_once_witness :
  let table := Spec.row_text Spec.header +:+ Spec.row_text ["old.fasta"; "NA"; "Unavailable"] in
  let w := World {["BS_results.txt" := table]} [] [] in
  is_Some (fs w !! "BS_results.txt")
  /\ generate_output "BS_results.txt" w = (w, Ok tt)
  /\ fs (fst (bind (generate_output "BS_results.txt")
                   (fun _ => output "BS_results.txt" ["Vibrio cholerae"] "new.fasta") w))
       !! "BS_results.txt" =
       Some (table +:+ Spec.row_text ["new.fasta"; "Vibrio cholerae"]).
Proof.
  intros table w.
  assert (Hfile : is_Some (fs w !! "BS_results.txt")) by (eexists; reflexivity).
  split; [exact Hfile|]. split.
  - exact (proj1 (header_written_once "BS_results.txt" w) Hfile).
  - exact (proj2 (proj2 (proj2 (header_written_once "BS_results.txt" w)))
             table ["Vibrio cholerae"] "new.fasta" eq_refl).
Defined.

End ReportWriter.

(** ** The driver *)

Section DriverFacts.

Variable blastn : string -> string -> Z -> string.
Variable which : string -> bool.
Variable time_report : string.

Implicit Types (w : world) (database : gmap string string) (args : arguments).

(** The test [out == 0] compares a [str] with an [int] and never
    holds, so [get_best_result] leaves the world as it is. *)
Lemma get_best_result_pure inputfile refs threads database w :
  get_best_result blastn inputfile refs threads database w =
    (w, best_of_output database (blastn inputfile refs threads)).
Proof. reflexivity. Qed.

Lemma each_input_app args database before after w :
  each_input blastn args database (before ++ after) w =
    bind (each_input blastn args database before)
         (fun _ => each_input blastn args database after) w.
Proof.
  revert w; induction before as [|inputfile before IH]; intros w; [done|].
  simpl. unfold bind in *. rewrite !get_best_result_pure.
  destruct (best_of_output _ _) as [best_match|e]; [|done].
  pose proof (output_effect (outdir args) best_match inputfile w) as Hout.
  unfold bind in Hout. rewrite Hout. apply IH.
Qed.

Lemma for_map_raises {A B} (f : A -> result B) (l : list A) x :
  x ∈ l -> (exists e, f x = Raise e) -> exists e, for_map f l = Raise e.
Proof.
  intros Hx Hfx. induction l as [|y l IH]; [by apply elem_of_nil in Hx|].
  simpl. apply elem_of_cons in Hx as [<-|Hx].
  - destruct Hfx as [e ->]. by eexists.
  - destruct (f y); simpl; [|by eexists].
    destruct (IH Hx) as [e ->]. by eexists.
Qed.

Lemma select_best_lookup_miss database hits :
  Spec.lookup_miss database hits -> exists e, select_best database hits = Raise e.
Proof.
  intros (hit & Hin & Hmiss).
  destruct (select_best database hits) as [result|e] eqn:Hsel; [|by eexists].
  apply best_match_names in Hsel as (names & Hnames & _).
  exfalso. clear -Hin Hmiss Hnames.
  induction Hnames as [|h name l names Hh _ IH]; [by apply elem_of_nil in Hin|].
  apply elem_of_cons in Hin as [->|Hin]; [congruence|auto].
Qed.

(** A malformed record makes lines 76 to 92 raise. *)
Lemma best_of_output_malformed database out :
  Spec.malformed database out -> exists e, best_of_output database out = Raise e.
Proof.
  unfold best_of_output. intros [(line & Hline & Hshort)|(hits & -> & Hmiss)].
  - destruct (for_map_raises BlastResult.init _ line Hline) as [e ->];
      [by apply init_short_line_raises|by eexists].
  - simpl. by apply select_best_lookup_miss.
Qed.

(** C3, as the program has it. When a list of input files is
    processed, a malformed hit record (a hit line with fewer than 12
    tab-delimited fields, or a reference-index lookup miss for the
    query id of an accepted hit) raises an exception that nothing
    catches: the run ends there with that exception, in the world left
    by the files before, so neither that file nor any file after it
    gets a row or a summary line, and the rows of the files before it
    stay. *)
Theorem malformed_record_aborts_run
    args database before inputfile after w w1 :
  check_dependencies which w = (w, Ok tt) ->
  process_reference (refs args) w = (w, Ok database) ->
  input args = before ++ inputfile :: after ->
  each_input blastn args database before (fst (generate_output (outdir args) w))
    = (w1, Ok tt) ->
  Spec.malformed database (blastn inputfile (refs args) (threads args)) ->
  exists e, main blastn which time_report args w = (w1, Raise e).
Proof.
  intros Hdeps Href Hinput Hbefore Hmalformed.
  destruct (best_of_output_malformed _ _ Hmalformed) as [e He].
  exists e. unfold main. unfold bind at 1. rewrite Hdeps.
  unfold bind at 1. rewrite Href.
  unfold bind at 1.
  assert (Hgen : generate_output (outdir args) w =
                 (fst (generate_output (outdir args) w), Ok tt)).
  { destruct (fs w !! outdir args) as [content|] eqn:Hfile.
    - by rewrite generate_output_present by (by rewrite Hfile).
    - by rewrite generate_output_absent by done. }
  rewrite Hgen. unfold bind at 1.
  rewrite Hinput, each_input_app. unfold bind at 1. rewrite Hbefore.
  simpl. unfold bind at 1. by rewrite get_best_result_pure, He.
Qed.

End DriverFacts.

(** ** Runs of the driver on concrete inputs *)

Section Runs.

Import Scenario.

Lemma bad_hit_malformed :
  Spec.malformed database (aligner "bad.fasta" "reference_database" 4).
Proof.
  left. exists (Py.join tab ["NR_1"; "contig_1"]). split.
  - apply list_elem_of_here.
  - simpl. lia.
Qed.

(** The run over [first.fasta; bad.fasta; good.fasta] ends with the
    exception of [bad.fasta], in the world left by [first.fasta]. *)
Lemma malformed_record_aborts_run_witness :
  check_dependencies installed start = (start, Ok tt)
  /\ process_reference "reference_database" start = (start, Ok database)
  /\ Spec.malformed database (aligner "bad.fasta" "reference_database" 4)
  /\ exists e,
       run ["first.fasta"; "bad.fasta"; "good.fasta"] =
         (World (table (Spec.row_text ["first.fasta"; "Vibrio cholerae"]))
                ["first.fasta: Vibrio cholerae"] [],
          Raise e).
Proof.
  split; [reflexivity|]. split; [reflexivity|]. split; [exact bad_hit_malformed|].
  exact (malformed_record_aborts_run aligner installed clock
           (args ["first.fasta"; "bad.fasta"; "good.fasta"])
           database ["first.fasta"] "bad.fasta" ["good.fasta"] start
           (World (table (Spec.row_text ["first.fasta"; "Vibrio cholerae"]))
                  ["first.fasta: Vibrio cholerae"] [])
           eq_refl eq_refl eq_refl eq_refl bad_hit_malformed).
Defined.

(** C3 as stated fails. The first of two input files has a malformed
    hit record, the second has a good hit and is reported when it is
    run alone; in the run over both, the exception of the first ends
    the run: the table holds its header only and nothing is printed,
    so the second file is neither processed nor reported. *)
Lemma malformed_record_stops_later_files :
  Spec.malformed database (aligner "bad.fasta" "reference_database" 4)
  /\ run ["good.fasta"] =
       (World (table (Spec.row_text ["good.fasta"; "Vibrio cholerae"]))
              ["good.fasta: Vibrio cholerae"; clock] [],
        Ok tt)
  /\ run ["bad.fasta"; "good.fasta"] = (World (table "") [] [], Raise IndexError).
Proof.
  split; [exact bad_hit_malformed|]. split; reflexivity.
Qed.

(** C4, where the program departs from it. On an input file whose
    alignment output is the empty text, [get_best_result] returns the
    empty result and prints nothing, because [out == 0] compares a
    [str] with the [int] 0 and is false for every text; the row
    [input-file, NA, Unavailable] and the summary are then written by
    [output], and the summary is the only line printed. *)
Theorem no_hit_message_is_not_printed
    (inputfile refs outdir : string) (threads : Z)
    (index : gmap string string) (w : world) :
  (forall out, py_eq (PyStr out) (PyInt 0) = false)
  /\ get_best_result (fun _ _ _ => "") inputfile refs threads index w = (w, Ok [])
  /\ bind (get_best_result (fun _ _ _ => "") inputfile refs threads index)
          (fun best_match => output outdir best_match inputfile) w =
       (World (<[outdir := default "" (fs w !! outdir)
                           +:+ Spec.row_text [inputfile; "NA"; "Unavailable"]]> (fs w))
              (stdout w ++ [inputfile +:+ ": Unavailable"])
              (stderr w),
        Ok tt).
Proof.
  split; [done|]. split; [reflexivity|].
  unfold bind. rewrite get_best_result_pure.
  change (best_of_output index "") with (Ok (@nil string)).
  apply output_effect.
Qed.

End Runs.


(** ** More on the driver: where a run stops and what it leaves *)

Section DriverRuns.

Variable blastn : string -> string -> Z -> string.
Variable which : string -> bool.
Variable time_report : string.

Implicit Types (w : world) (database : gmap string string) (args : arguments).



Lemma bind_ok {A B} (m : M A) (k : A -> M B) w w' a :
  m w = (w', Ok a) -> bind m k w = k a w'.
Proof. intros Hm. unfold bind. by rewrite Hm. Qed.

Lemma bind_raise {A B} (m : M A) (k : A -> M B) w w' e :
  m w = (w', Raise e) -> bind m k w = (w', Raise e).
Proof. intros Hm. unfold bind. by rewrite Hm. Qed.

Lemma check_each_found dependencies w :
  Forall (fun tool => which tool = true) dependencies ->
  check_each which dependencies w = (w, Ok tt).
Proof.
  induction 1 as [|tool rest Htool _ IH]; simpl; [done|]. by rewrite Htool.
Qed.

Lemma check_each_missing found missing rest w :
  Forall (fun tool => which tool = true) found ->
  which missing = false ->
  check_each which (found ++ missing :: rest) w =
    (World (fs w) (stdout w)
           (stderr w ++ ["Error: could not find " +:+ missing +:+ " tool"]),
     Raise (SystemExit 1)).
Proof.
  intros Hfound Hmissing.
  induction Hfound as [|tool found Htool _ IH]; simpl.
  - by rewrite Hmissing.
  - by rewrite Htool.
Qed.

Lemma first_missing (dependencies : list string) tool :
  tool ∈ dependencies -> which tool = false ->
  exists found missing rest,
    dependencies = found ++ missing :: rest
    /\ Forall (fun tool => which tool = true) found
    /\ which missing = false.
Proof.
  intros Hin Htool. induction Hin as [tool rest|tool other rest _ IH].
  - by exists [], tool, rest.
  - destruct (which other) eqn:Hother.
    + destruct (IH Htool) as (found & missing & rest' & -> & Hfound & Hmissing).
      exists (other :: found), missing, rest'. split; [done|]. split; [|done].
      constructor; [exact Hother|exact Hfound].
    + by exists [], other, rest.
Qed.

(** X1. When [which] does not find one of the three tools, the run ends
    with exit status 1 before anything else happens: the first tool not
    found, in the order makeblastdb, blastn, tblastn, is named in the
    one line written to standard error, and the files and the standard
    output are as before. *)
Theorem missing_tool_exits_before_any_work args w tool :
  tool ∈ ["makeblastdb"; "blastn"; "tblastn"] ->
  which tool = false ->
  exists found missing rest,
    ["makeblastdb"; "blastn"; "tblastn"] = found ++ missing :: rest
    /\ Forall (fun tool => which tool = true) found
    /\ which missing = false
    /\ main blastn which time_report args w =
         (World (fs w) (stdout w)
                (stderr w ++ ["Error: could not find " +:+ missing +:+ " tool"]),
          Raise (SystemExit 1)).
Proof.
  intros Hin Htool.
  destruct (first_missing _ _ Hin Htool) as (found & missing & rest & Hsplit & Hfound & Hmissing).
  exists found, missing, rest. split; [done|]. split; [done|]. split; [done|].
  unfold main. apply bind_raise. unfold check_dependencies. rewrite Hsplit.
  by apply check_each_missing.
Qed.

Lemma check_dependencies_found w :
  (forall tool, tool ∈ ["makeblastdb"; "blastn"; "tblastn"] -> which tool = true) ->
  check_dependencies which w = (w, Ok tt).
Proof.
  intros Hfound. apply check_each_found. by apply Forall_forall.
Qed.

(** X2. With the tools in place, a reference path that names no file
    ends the run with [FileNotFoundError] for that path, and the world is
    as before: the output table is not created and nothing is
    printed. *)
Theorem missing_reference_stops_before_table args w :
  (forall tool, tool ∈ ["makeblastdb"; "blastn"; "tblastn"] -> which tool = true) ->
  fs w !! refs args = None ->
  main blastn which time_report args w = (w, Raise (FileNotFoundError (refs args))).
Proof.
  intros Hfound Hfile. unfold main.
  rewrite (bind_ok _ _ w w tt) by by apply check_dependencies_found.
  apply bind_raise. unfold process_reference. apply bind_raise.
  unfold read_lines. by rewrite Hfile.
Qed.

Lemma reference_line_raises_IndexError database line e :
  reference_line database line = Raise e -> e = IndexError.
Proof.
  unfold reference_line, getitem.
  destruct (Py.startswith line ">"); [|done].
  repeat (match goal with
          | |- context [rbind (match ?o with _ => _ end) _] => destruct o; simpl
          end; try congruence).
Qed.

Lemma reference_line_short_header database line :
  Py.startswith line ">" = true ->
  length (Py.split Py.SPACE (Py.slice_from line 1)) < 3 ->
  reference_line database line = Raise IndexError.
Proof.
  intros Hheader Hshort. unfold reference_line, getitem. rewrite Hheader.
  destruct (Py.split Py.SPACE (Py.slice_from line 1)) as [|id [|genus [|epithet rest]]];
    simpl in *; try done; lia.
Qed.

Lemma reference_fold_short_header lines line :
  line ∈ lines ->
  Py.startswith line ">" = true ->
  length (Py.split Py.SPACE (Py.slice_from line 1)) < 3 ->
  forall database, for_fold reference_line database lines = Raise IndexError.
Proof.
  intros Hin Hheader Hshort.
  induction Hin as [line lines|line other lines _ IH]; intros database; simpl.
  - by rewrite reference_line_short_header.
  - destruct (reference_line database other) as [database'|e] eqn:Hother; simpl.
    + by apply IH.
    + by rewrite (reference_line_raises_IndexError _ _ _ Hother).
Qed.

(** X3. With the tools in place, a reference file that holds, anywhere,
    a header line of fewer than three space-separated tokens ends the
    run with [IndexError], and the world is as before: the output table
    is not created and no input file is aligned. *)
Theorem short_reference_header_stops_before_table args w text line :
  (forall tool, tool ∈ ["makeblastdb"; "blastn"; "tblastn"] -> which tool = true) ->
  fs w !! refs args = Some text ->
  line ∈ Py.readlines (Py.universal_newlines text) ->
  Py.startswith line ">" = true ->
  length (Py.split Py.SPACE (Py.slice_from line 1)) < 3 ->
  main blastn which time_report args w = (w, Raise IndexError).
Proof.
  intros Hfound Hfile Hin Hheader Hshort. unfold main.
  rewrite (bind_ok _ _ w w tt) by by apply check_dependencies_found.
  apply bind_raise. unfold process_reference, bind, read_lines, lift.
  rewrite Hfile. f_equal. by apply (reference_fold_short_header _ line).
Qed.

(** *** A run without exception *)


Lemma generate_output_table w outdir :
  generate_output outdir w =
    (World (<[outdir := default (Spec.row_text Spec.header) (fs w !! outdir)]> (fs w))
           (stdout w) (stderr w),
     Ok tt).
Proof.
  destruct (fs w !! outdir) as [content|] eqn:Hfile.
  - rewrite generate_output_present by (by rewrite Hfile).
    simpl. rewrite insert_id by done. by destruct w.
  - by rewrite generate_output_absent.
Qed.



(** *** What a run never touches *)

Lemma frame_bind {A B} (m : M A) (k : A -> M B) (p : string) :
  (forall w, fs (fst (m w)) !! p = fs w !! p) ->
  (forall a w, fs (fst (k a w)) !! p = fs w !! p) ->
  forall w, fs (fst (bind m k w)) !! p = fs w !! p.
Proof.
  intros Hm Hk w. unfold bind. specialize (Hm w).
  destruct (m w) as [w' [a|e]]; simpl in *; [|done]. by rewrite Hk.
Qed.

Lemma frame_check_each dependencies p w :
  fs (fst (check_each which dependencies w)) !! p = fs w !! p.
Proof.
  induction dependencies as [|tool rest IH]; simpl; [done|].
  by destruct (which tool).
Qed.

Lemma frame_process_reference refs p w :
  fs (fst (process_reference refs w)) !! p = fs w !! p.
Proof.
  unfold process_reference, bind, read_lines, lift. by destruct (fs w !! refs).
Qed.

Lemma frame_generate_output outdir p w :
  p ≠ outdir -> fs (fst (generate_output outdir w)) !! p = fs w !! p.
Proof.
  intros Hp. rewrite generate_output_table. simpl. by rewrite lookup_insert_ne.
Qed.

Lemma frame_each_input args database inputs p w :
  p ≠ outdir args ->
  fs (fst (each_input blastn args database inputs w)) !! p = fs w !! p.
Proof.
  intros Hp. revert w. induction inputs as [|inputfile rest IH]; intros w; [done|].
  simpl each_input. apply frame_bind; [done|]. intros best_match w'.
  apply frame_bind; [|intros _; apply IH]. intros w''. rewrite output_effect. simpl.
  by rewrite lookup_insert_ne.
Qed.

(** X5. Whatever the run does, with or without exception, it writes no
    file but the output table: every other path holds after the run what
    it held before, the reference file and the input files among
    them. *)
Theorem main_writes_only_the_table args w (p : string) :
  p ≠ outdir args ->
  fs (fst (main blastn which time_report args w)) !! p = fs w !! p.
Proof.
  intros Hp. unfold main.
  apply frame_bind; [apply frame_check_each|]. intros _ w1.
  apply frame_bind; [apply frame_process_reference|]. intros database w2.
  apply frame_bind; [intros w'; by apply frame_generate_output|]. intros _ w3.
  apply frame_bind; [intros w'; by apply frame_each_input|]. by intros _ w4.
Qed.



End DriverRuns.

Section DriverRunsOnScenario.

Import Scenario.

Lemma missing_tool_exits_before_any_work_witness :
  let found_but_blastn := fun tool : string => negb (String.eqb tool "blastn") in
  "blastn" ∈ ["makeblastdb"; "blastn"; "tblastn"]
  /\ found_but_blastn "blastn" = false
  /\ exists found missing rest,
       ["makeblastdb"; "blastn"; "tblastn"] = found ++ missing :: rest
       /\ Forall (fun tool => found_but_blastn tool = true) found
       /\ found_but_blastn missing = false
       /\ main aligner found_but_blastn clock (args ["good.fasta"]) start =
            (World (fs start) (stdout start)
                   (stderr start ++ ["Error: could not find " +:+ missing +:+ " tool"]),
             Raise (SystemExit 1)).
Proof.
  intros found_but_blastn.
  assert (Hin : "blastn" ∈ ["makeblastdb"; "blastn"; "tblastn"])
    by apply list_elem_of_further, list_elem_of_here.
  split; [exact Hin|]. split; [reflexivity|].
  exact (missing_tool_exits_before_any_work aligner found_but_blastn clock
           (args ["good.fasta"]) start "blastn" Hin eq_refl).
Defined.

Lemma installed_all tool :
  tool ∈ ["makeblastdb"; "blastn"; "tblastn"] -> installed tool = true.
Proof. reflexivity. Qed.

Lemma missing_reference_stops_before_table_witness :
  let empty := World ∅ [] [] in
  fs empty !! refs (args ["good.fasta"]) = None
  /\ main aligner installed clock (args ["good.fasta"]) empty =
       (empty, Raise (FileNotFoundError "reference_database")).
Proof.
  intros empty. split; [reflexivity|].
  exact (missing_reference_stops_before_table aligner installed clock
           (args ["good.fasta"]) empty installed_all eq_refl).
Defined.

Lemma short_reference_header_stops_before_table_witness :
  let text := ">NR_1 Vibrio cholerae strain" +:+ newline +:+ ">NR_2 Vibrio" +:+ newline in
  let w := World {["reference_database" := text]} [] [] in
  let line := ">NR_2 Vibrio" +:+ newline in
  line ∈ Py.readlines (Py.universal_newlines text)
  /\ Py.startswith line ">" = true
  /\ length (Py.split Py.SPACE (Py.slice_from line 1)) < 3
  /\ main aligner installed clock (args ["good.fasta"]) w = (w, Raise IndexError).
Proof.
  intros text w line.
  assert (Hin : line ∈ Py.readlines (Py.universal_newlines text))
    by apply list_elem_of_further, list_elem_of_here.
  assert (Hshort : length (Py.split Py.SPACE (Py.slice_from line 1)) < 3)
    by (simpl; lia).
  split; [exact Hin|]. split; [reflexivity|]. split; [exact Hshort|].
  exact (short_reference_header_stops_before_table aligner installed clock
           (args ["good.fasta"]) w text line installed_all eq_refl Hin eq_refl Hshort).
Defined.



Lemma main_writes_only_the_table_witness :
  "reference_database" ≠ outdir (args ["bad.fasta"])
  /\ fs (fst (run ["bad.fasta"])) !! "reference_database" = Some reference.
Proof.
  assert (Hpath : "reference_database" ≠ outdir (args ["bad.fasta"])) by discriminate.
  split; [exact Hpath|].
  exact (eq_trans
           (main_writes_only_the_table aligner installed clock (args ["bad.fasta"]) start
              "reference_database" Hpath)
           eq_refl).
Defined.


End DriverRunsOnScenario.

(** ** More on the hit parser *)

Section HitParser.

Lemma join_split c s : Py.join (String c "") (Py.split c s) = s.
Proof.
  induction s as [|a s IH]; [done|]. simpl Py.split.
  pose proof (split_not_nil c s) as Hne.
  destruct (Ascii.eqb_spec a c) as [->|Hac].
  - destruct (Py.split c s) as [|x xs]; [done|].
    change (Py.join (String c "") ("" :: x :: xs))
      with (String c (Py.join (String c "") (x :: xs))).
    by rewrite IH.
  - destruct (Py.split c s) as [|x [|y ys]]; [done|..].
    + simpl in *. by rewrite IH.
    + change (Py.join (String c "") (String a x :: y :: ys))
        with (String a (Py.join (String c "") (x :: y :: ys))).
      by rewrite IH.
Qed.

Lemma split_segments_free c s :
  Forall (fun segment => Py.index_of c segment = None) (Py.split c s).
Proof.
  induction s as [|a s IH]; simpl; [by constructor|].
  destruct (Ascii.eqb_spec a c) as [->|Hac]; [by constructor|].
  destruct (Py.split c s) as [|x xs]; [constructor; [|done]|].
  - simpl. by destruct (Ascii.eqb_spec a c).
  - inversion_clear IH. constructor; [|done]. by apply index_of_cons_None.
Qed.

(** X7. The line iterator loses nothing but the fragment after the last
    newline: the lines it yields hold no newline, and joined by
    newlines, with that fragment after them, they give the text
    back. *)
Theorem line_iterator_loses_only_the_tail (text : string) :
  exists tail,
    Py.index_of Py.NL tail = None
    /\ Py.join newline (line_iterator text ++ [tail]) = text
    /\ Forall (fun line => Py.index_of Py.NL line = None) (line_iterator text).
Proof.
  rewrite line_iterator_segments. unfold Spec.terminated_segments.
  pose proof (split_segments_free Py.NL text) as Hfree.
  pose proof (join_split Py.NL text) as Hjoin.
  pose proof (split_not_nil Py.NL text) as Hne.
  rewrite (app_removelast_last "" Hne) in Hfree, Hjoin.
  apply Forall_app in Hfree as [Hlines Htail].
  exists (List.last (Py.split Py.NL text) ""). split; [by inversion_clear Htail|].
  by split.
Qed.

End HitParser.

(** ** More on the hit record *)

Section HitFields.

(** X8. A hit line raises nothing but [IndexError], [ValueError] or
    [ZeroDivisionError]; with fewer than 9 tab-separated fields it
    raises [IndexError]; with fewer than 12 it raises [IndexError] or
    [ValueError], so it never gives a hit. *)
Theorem hit_line_errors (hit_string : string) :
  (forall e, BlastResult.init hit_string = Raise e ->
             e = IndexError \/ e = ValueError \/ e = ZeroDivisionError)
  /\ (length (Py.split Py.TAB hit_string) < 9 ->
      BlastResult.init hit_string = Raise IndexError)
  /\ (length (Py.split Py.TAB hit_string) < 12 ->
      BlastResult.init hit_string = Raise IndexError
      \/ BlastResult.init hit_string = Raise ValueError).
Proof.
  split; [|split].
  - intros e. unfold BlastResult.init, getitem.
    repeat (match goal with
            | |- context [rbind (match ?o with _ => _ end) _] => destruct o; simpl
            | |- context [rbind (of_option _ ?o) _] => destruct o; simpl
            | |- context [if ?b then _ else _] => destruct b
            end; try (intros [= <-]; tauto)); done.
  - intros Hshort. unfold BlastResult.init, getitem.
    pose proof (split_not_nil Py.TAB hit_string) as Hne.
    rewrite (lookup_ge_None_2 _ 8) by lia.
    by destruct (Py.split Py.TAB hit_string !! 0).
  - intros Hshort. unfold BlastResult.init, getitem.
    rewrite (lookup_ge_None_2 _ 11) by lia.
    repeat (match goal with
            | |- context [rbind (match ?o with _ => _ end) _] => destruct o; simpl
            | |- context [rbind (of_option _ ?o) _] => destruct o; simpl
            end; try tauto).
Qed.

Lemma hit_line_errors_witness :
  length (Py.split Py.TAB Scenario.bad_hit) < 9
  /\ BlastResult.init Scenario.bad_hit = Raise IndexError.
Proof.
  assert (Hshort : length (Py.split Py.TAB Scenario.bad_hit) < 9) by (simpl; lia).
  split; [exact Hshort|].
  exact (proj1 (proj2 (hit_line_errors Scenario.bad_hit)) Hshort).
Defined.

(** X9. Of a line of tab-separated fields only the fields 0, 8, 9, 10
    and 11 are read: two lines that agree on these give the same hit or
    the same exception, whatever their other fields and however many
    fields follow. *)
Theorem hit_reads_five_fields (fields fields' : list string) :
  Forall (fun field => Py.index_of Py.TAB field = None) fields ->
  Forall (fun field => Py.index_of Py.TAB field = None) fields' ->
  fields ≠ [] ->
  (forall i, i ∈ [0; 8; 9; 10; 11] -> fields !! i = fields' !! i) ->
  BlastResult.init (Py.join tab fields) = BlastResult.init (Py.join tab fields').
Proof.
  intros Hfree Hfree' Hne Hsame.
  assert (Hne' : fields' ≠ []).
  { intros ->. destruct fields as [|field rest]; [done|].
    by specialize (Hsame 0 (list_elem_of_here _ _)). }
  unfold BlastResult.init, getitem. rewrite !split_join_columns by done.
  rewrite (Hsame 0), (Hsame 8), (Hsame 9), (Hsame 10), (Hsame 11); [done|..];
    repeat first [apply list_elem_of_here | apply list_elem_of_further].
Qed.

Lemma hit_reads_five_fields_witness :
  let fields := ["NR_1"; "contig_1"; "1"; "16"; "5"; "20"; "0.0"; "2700";
                 "1500"; "99.75"; "16"; "ACGTACGTACGTACGT"] in
  let fields' := ["NR_1"; "contig_9"; "7"; "22"; "1"; "16"; "1e-50"; "31";
                  "1500"; "99.75"; "16"; "ACGTACGTACGTACGT"; "more"; "fields"] in
  BlastResult.init (Py.join tab fields) = BlastResult.init (Py.join tab fields').
Proof.
  intros fields fields'.
  apply (hit_reads_five_fields fields fields').
  - repeat constructor.
  - repeat constructor.
  - discriminate.
  - intros i Hi. repeat (apply elem_of_cons in Hi as [->|Hi]; [reflexivity|]).
    by apply elem_of_nil in Hi.
Defined.

End HitFields.

(** ** More on the best-match scan *)

Section ScanFacts.

Implicit Types (database : gmap string string) (hit : BlastResult.t)
  (hits : list BlastResult.t).

Lemma scan_loop_skips_short database hits st :
  for_fold (scan_hit database) st hits =
    for_fold (scan_hit database) st
             (filter (fun hit => (1000 <= BlastResult.length hit)%Z) hits).
Proof.
  revert st; induction hits as [|hit hits IH]; intros st; [done|].
  destruct (Z.lt_ge_cases (BlastResult.length hit) 1000) as [Hshort|Hlong].
  - rewrite filter_cons_False by lia. simpl. rewrite scan_hit_short by done. apply IH.
  - rewrite filter_cons_True by done. simpl.
    destruct (scan_hit database st hit); simpl; [apply IH|done].
Qed.

(** X10. Hits with an alignment length under 1000 count for nothing:
    the list returned, or the exception raised, is that of the hits of
    length 1000 or more alone; so an unknown id on a short hit raises
    nothing. *)
Theorem short_hits_change_nothing database hits :
  select_best database hits =
    select_best database (filter (fun hit => (1000 <= BlastResult.length hit)%Z) hits).
Proof.
  unfold select_best. by rewrite scan_loop_skips_short.
Qed.

(** Adding a name to distinct matches, then the new names of a list,
    adds the new names of the list headed by that name. *)
Lemma matches_extend (seen : list string) name (rest : list string) :
  (if Py.contains seen name then seen else seen ++ [name])
    ++ filter (.∉ (if Py.contains seen name then seen else seen ++ [name]))
              (Spec.first_occurrences rest)
  = seen ++ filter (.∉ seen) (Spec.first_occurrences (name :: rest)).
Proof.
  simpl Spec.first_occurrences.
  destruct (Py.contains seen name) eqn:Hin.
  - apply contains_elem_of in Hin.
    rewrite filter_cons_False by (intros Hnot; by apply Hnot).
    rewrite list_filter_filter_l; [done|]. intros x Hx ->. by apply Hx.
  - apply contains_not_elem_of in Hin.
    rewrite filter_cons_True by done.
    rewrite <- app_assoc. simpl. do 2 f_equal.
    rewrite list_filter_filter. apply list_filter_iff. intros x.
    rewrite not_elem_of_app, not_elem_of_cons. pose proof (not_elem_of_nil x). tauto.
Qed.

Lemma scan_loop_result database hits :
  forall seen coverage identity,
    (st <-? for_fold (scan_hit database) (Scan seen coverage identity) hits;
     Ok (best_match st)) =
      match list_find (fun hit => database !! BlastResult.qseqid hit = None)
                      (Spec.accepted identity coverage hits) with
      | Some (_, hit) => Raise (KeyError (BlastResult.qseqid hit))
      | None =>
          Ok (seen ++ filter (.∉ seen)
                (Spec.first_occurrences
                   (omap (fun hit => database !! BlastResult.qseqid hit)
                         (Spec.accepted identity coverage hits))))
      end.
Proof.
  induction hits as [|hit hits IH]; intros seen coverage identity.
  - simpl. by rewrite filter_nil, app_nil_r.
  - simpl for_fold.
    destruct (Z.lt_ge_cases (BlastResult.length hit) 1000) as [Hshort|Hlong].
    { rewrite scan_hit_short, accepted_cons_short by done. apply IH. }
    rewrite accepted_cons_long by done.
    destruct ((identity <=? BlastResult.pident hit)%float
              && (coverage <=? BlastResult.query_cov hit)%float) eqn:Hacc.
    2: { rewrite scan_hit_regress by done. apply IH. }
    rewrite scan_hit_accept by done. simpl best_match. simpl list_find.
    destruct (database !! BlastResult.qseqid hit) as [name|] eqn:Hname.
    + rewrite decide_False by done. simpl rbind. rewrite IH.
      simpl omap. rewrite Hname. simpl.
      destruct (list_find _ _) as [[i missing]|]; simpl; [done|].
      f_equal. apply matches_extend.
    + by rewrite decide_True.
Qed.

(** X11. The selector as a function of the accepted hits: it raises
    [KeyError] for the id of the first accepted hit that the index does
    not hold, never another exception; when the index holds them all it
    returns their names, each at its first occurrence. *)
Theorem select_best_result database hits :
  select_best database hits =
    match list_find (fun hit => database !! BlastResult.qseqid hit = None)
                    (Spec.accepted 0 0 hits) with
    | Some (_, hit) => Raise (KeyError (BlastResult.qseqid hit))
    | None =>
        Ok (Spec.first_occurrences
              (omap (fun hit => database !! BlastResult.qseqid hit)
                    (Spec.accepted 0 0 hits)))
    end.
Proof.
  unfold select_best, scan_start. rewrite scan_loop_result.
  destruct (list_find _ _) as [[i missing]|]; [done|].
  simpl. by rewrite filter_not_elem_of_nil.
Qed.

Lemma first_occurrences_elem_of (names : list string) name :
  name ∈ Spec.first_occurrences names <-> name ∈ names.
Proof.
  induction names as [|other names IH]; [done|]. simpl.
  rewrite !elem_of_cons, list_elem_of_filter, IH.
  destruct (decide (name = other)); tauto.
Qed.

Lemma accepted_are_long_hits identity coverage hits hit :
  hit ∈ Spec.accepted identity coverage hits ->
  hit ∈ hits /\ (1000 <= BlastResult.length hit)%Z.
Proof.
  revert identity coverage. induction hits as [|other hits IH]; intros identity coverage.
  - by intros ?%elem_of_nil.
  - simpl.
    destruct (Z.leb_spec 1000 (BlastResult.length other)) as [Hlong|Hshort]; simpl.
    + destruct (_ && _).
      * intros [->|Hin]%elem_of_cons; [split; [left|done]|].
        destruct (IH _ _ Hin). split; [by right|done].
      * intros Hin. destruct (IH _ _ Hin). split; [by right|done].
    + intros Hin. destruct (IH _ _ Hin). split; [by right|done].
Qed.

(** X12. Every name returned is the name the index gives to a hit of
    the input of alignment length 1000 or more, and it is returned for
    an accepted hit exactly. *)
Theorem reported_names_come_from_long_hits database hits result name :
  select_best database hits = Ok result ->
  (name ∈ result <->
   exists hit, hit ∈ Spec.accepted 0 0 hits
               /\ database !! BlastResult.qseqid hit = Some name)
  /\ (name ∈ result ->
      exists hit, hit ∈ hits
                  /\ (1000 <= BlastResult.length hit)%Z
                  /\ database !! BlastResult.qseqid hit = Some name).
Proof.
  unfold select_best, scan_start. rewrite scan_loop_result.
  destruct (list_find _ _) as [[i missing]|]; [done|].
  simpl. rewrite filter_not_elem_of_nil. intros [= <-].
  assert (Hiff : name ∈ Spec.first_occurrences
                          (omap (fun hit => database !! BlastResult.qseqid hit)
                                (Spec.accepted 0 0 hits))
                 <-> exists hit, hit ∈ Spec.accepted 0 0 hits
                                 /\ database !! BlastResult.qseqid hit = Some name).
  { by rewrite first_occurrences_elem_of, list_elem_of_omap. }
  split; [done|]. intros (hit & Hin & Hname)%Hiff.
  destruct (accepted_are_long_hits _ _ _ _ Hin). by exists hit.
Qed.

Lemma reported_names_come_from_long_hits_witness :
  let database : gmap string string := <["X" := "Species A"]> {["Y" := "Species B"]} in
  let hits := [BlastResult.Build "Y" 900 100 100;
               BlastResult.Build "X" 1200 99.5 98] in
  select_best database hits = Ok ["Species A"]
  /\ exists hit, hit ∈ hits
                 /\ (1000 <= BlastResult.length hit)%Z
                 /\ database !! BlastResult.qseqid hit = Some "Species A".
Proof.
  intros database hits. split; [reflexivity|].
  exact (proj2 (reported_names_come_from_long_hits database hits ["Species A"]
                  "Species A" eq_refl)
           (list_elem_of_here _ _)).
Defined.

Lemma accepted_nil_iff hits :
  Spec.accepted 0 0 hits = [] <->
  Forall (fun hit => (BlastResult.length hit < 1000)%Z
                     \/ (0 <=? BlastResult.pident hit)%float = false
                     \/ (0 <=? BlastResult.query_cov hit)%float = false) hits.
Proof.
  induction hits as [|hit hits IH]; [by split; [constructor|]|]. simpl.
  rewrite Forall_cons.
  destruct (Z.leb_spec 1000 (BlastResult.length hit)) as [Hlong|Hshort]; simpl.
  - destruct (0 <=? BlastResult.pident hit)%float; simpl.
    + destruct (0 <=? BlastResult.query_cov hit)%float; simpl.
      * split; [done|]. intros [[?|[?|?]] _]; [lia|done..].
      * rewrite IH. split; [by auto|]. by intros [_ ?].
    + rewrite IH. split; [by auto|]. by intros [_ ?].
  - rewrite IH. split; [by auto|]. by intros [_ ?].
Qed.

(** X13. The empty result, which the report shows as Unavailable, is
    returned exactly when no hit has an alignment length of 1000 or
    more together with an identity and a coverage of 0.0 or more. *)
Theorem empty_result_iff_no_usable_hit database hits :
  select_best database hits = Ok [] <->
  Forall (fun hit => (BlastResult.length hit < 1000)%Z
                     \/ (0 <=? BlastResult.pident hit)%float = false
                     \/ (0 <=? BlastResult.query_cov hit)%float = false) hits.
Proof.
  rewrite <- accepted_nil_iff. unfold select_best, scan_start.
  rewrite scan_loop_result.
  destruct (Spec.accepted 0 0 hits) as [|hit rest]; [done|].
  simpl. case_decide as Hname; [done|].
  split; [|done]. destruct (database !! BlastResult.qseqid hit) as [name|]; [|done].
  simpl. by destruct (prod_map S id <$> list_find _ rest) as [[i missing]|].
Qed.

End ScanFacts.

(** ** More on the reference index *)

Section ReferenceLookups.

Implicit Types (database : gmap string string) (line : string).

(** A line either leaves the mapping as it is or inserts one entry, the
    one it inserts into the empty mapping. *)
Lemma reference_line_cases database line database' :
  reference_line database line = Ok database' ->
  (database' = database /\ reference_line ∅ line = Ok ∅)
  \/ (exists id name, database' = <[id := name]> database
                      /\ reference_line ∅ line = Ok {[id := name]}).
Proof.
  unfold reference_line, getitem.
  destruct (Py.startswith line ">"); [|intros [= <-]; by left].
  destruct (Py.split Py.SPACE (Py.slice_from line 1)) as [|id [|genus [|epithet rest]]];
    simpl; try done.
  intros [= <-]. right. eexists _, _. split; [done|]. by rewrite insert_empty.
Qed.

Lemma singleton_entry_eq (id key name value : string) :
  ({[id := name]} : gmap string string) = {[key := value]} -> id = key /\ name = value.
Proof.
  intros Heq. apply (lookup_singleton_Some (M := gmap string)).
  rewrite Heq. apply lookup_singleton_eq.
Qed.

Lemma empty_not_entry (key value : string) :
  (∅ : gmap string string) ≠ {[key := value]}.
Proof.
  intros Heq. apply (f_equal (fun m : gmap string string => m !! key)) in Heq.
  by rewrite lookup_empty, lookup_singleton_eq in Heq.
Qed.

Lemma reference_fold_lookup lines :
  forall start database key value,
    for_fold reference_line start lines = Ok database ->
    (database !! key = Some value <->
     (exists before line after,
        lines = before ++ line :: after
        /\ reference_line ∅ line = Ok {[key := value]}
        /\ forall other value', other ∈ after ->
                                reference_line ∅ other ≠ Ok {[key := value']})
     \/ (start !! key = Some value
         /\ forall other value', other ∈ lines ->
                                 reference_line ∅ other ≠ Ok {[key := value']})).
Proof.
  induction lines as [|line lines IH]; intros start database key value.
  - simpl. intros [= <-]. split.
    + intros Hstart. right. split; [done|]. by intros ?? ?%elem_of_nil.
    + intros [(before & ? & ? & Hsplit & _)|[Hstart _]]; [|done].
      by destruct before.
  - simpl. destruct (reference_line start line) as [next|e] eqn:Hline; [|done].
    simpl. intros Hfold. rewrite (IH _ _ key value Hfold). clear IH Hfold.
    apply reference_line_cases in Hline
      as [[-> Hnone]|(id & name & -> & Hentry)].
    + split.
      * intros [(before & l & after & -> & Hl & Hafter)|[Hstart Hlines]].
        -- left. by exists (line :: before), l, after.
        -- right. split; [done|]. intros other value' [->|Hin]%elem_of_cons; [|by auto].
           rewrite Hnone. intros Heq.
           assert (Heq' : (∅ : gmap string string) = {[key := value']}) by congruence.
           by apply empty_not_entry in Heq'.
      * intros [(before & l & after & Hsplit & Hl & Hafter)|[Hstart Hlines]].
        -- destruct before as [|first before]; simplify_eq/=.
           ++ rewrite Hnone in Hl.
              assert (Heq' : (∅ : gmap string string) = {[key := value]}) by congruence.
              by apply empty_not_entry in Heq'.
           ++ left. by exists before, l, after.
        -- right. split; [done|]. intros other value' Hin.
           apply Hlines. by right.
    + split.
      * intros [(before & l & after & -> & Hl & Hafter)|[Hnext Hlines]].
        -- left. by exists (line :: before), l, after.
        -- destruct (decide (id = key)) as [->|Hne].
           ++ rewrite lookup_insert_eq in Hnext. injection Hnext as ->.
              left. by exists [], line, lines.
           ++ rewrite lookup_insert_ne in Hnext by done.
              right. split; [done|].
              intros other value' [->|Hin]%elem_of_cons; [|by auto].
              rewrite Hentry. intros Heq.
              assert (Heq' : ({[id := name]} : gmap string string) = {[key := value']})
                by congruence.
              by apply singleton_entry_eq in Heq' as [? _].
      * intros [(before & l & after & Hsplit & Hl & Hafter)|[Hstart Hlines]].
        -- destruct before as [|first before]; simplify_eq/=.
           ++ rewrite Hentry in Hl.
              assert (Heq : ({[id := name]} : gmap string string) = {[key := value]})
                by congruence.
              apply singleton_entry_eq in Heq as [-> ->].
              right. split; [apply lookup_insert_eq|done].
           ++ left. by exists before, l, after.
        -- right. split.
           ++ destruct (decide (id = key)) as [->|Hne].
              ** exfalso. apply (Hlines line name); [by left|done].
              ** by rewrite lookup_insert_ne.
           ++ intros other value' Hin. apply Hlines. by right.
Qed.

(** X14. In the index built from a reference file, an id maps to a name
    exactly when some header line of the file gives that id and that
    name and no header line after it gives the same id: the last header
    of an id decides, the lines that are no headers count for nothing,
    and an id that no header gives is absent. *)
Theorem last_header_of_an_id_wins (refs text : string) (w : world)
    (database : gmap string string) (key value : string) :
  fs w !! refs = Some text ->
  process_reference refs w = (w, Ok database) ->
  (database !! key = Some value <->
   exists before line after,
     Py.readlines (Py.universal_newlines text) = before ++ line :: after
     /\ reference_line ∅ line = Ok {[key := value]}
     /\ forall other value', other ∈ after ->
                             reference_line ∅ other ≠ Ok {[key := value']}).
Proof.
  intros Hfile. unfold process_reference, bind, read_lines, lift. rewrite Hfile.
  intros [= Hfold]. rewrite (reference_fold_lookup _ _ _ key value Hfold).
  split; [|by left]. intros [?|[Hempty _]]; [done|].
  by rewrite lookup_empty in Hempty.
Qed.

Lemma last_header_of_an_id_wins_witness :
  let text := ">NR_1 Vibrio cholerae strain" +:+ newline +:+ "ACGT" +:+ newline
              +:+ ">NR_1 Vibrio mimicus strain" +:+ newline +:+ "TTGA" +:+ newline in
  let w := World {["reference_database" := text]} [] [] in
  let database : gmap string string := {["NR_1" := "Vibrio mimicus"]} in
  process_reference "reference_database" w = (w, Ok database)
  /\ database !! "NR_1" = Some "Vibrio mimicus"
  /\ exists before line after,
       Py.readlines (Py.universal_newlines text) = before ++ line :: after
       /\ reference_line ∅ line = Ok {["NR_1" := "Vibrio mimicus"]}
       /\ forall other value', other ∈ after ->
                               reference_line ∅ other ≠ Ok {["NR_1" := value']}.
Proof.
  intros text w database. split; [reflexivity|]. split; [reflexivity|].
  exact (proj1 (last_header_of_an_id_wins "reference_database" text w database
                  "NR_1" "Vibrio mimicus" eq_refl eq_refl)
           eq_refl).
Defined.

End ReferenceLookups.

(** ** More on the report writer and on the parsing of the hits *)

Section RowsAndLines.

Lemma row_columns_free (c : ascii) inputfile (best_match : list string) :
  Py.index_of c "NA" = None ->
  Py.index_of c "Unavailable" = None ->
  Py.index_of c "Multiple results" = None ->
  Py.index_of c inputfile = None ->
  Forall (fun name => Py.index_of c name = None) best_match ->
  Forall (fun column => Py.index_of c column = None) (Spec.row inputfile best_match).
Proof.
  intros Hna Hun Hmu Hinput Hnames.
  destruct Hnames as [|first rest Hfirst Hrest]; [by repeat constructor|].
  destruct Hrest as [|second rest Hsecond Hrest]; by repeat constructor.
Qed.

(** X15. When the input-file name and the species names hold neither
    tab nor newline, the text that the report writer appends to the
    table is one line for the line iterator of the program, and that
    line splits on tabs into the columns of the row. *)
Theorem appended_row_reads_back outdir (best_match : list string) inputfile (w : world) :
  Py.index_of Py.TAB inputfile = None ->
  Py.index_of Py.NL inputfile = None ->
  Forall (fun name => Py.index_of Py.TAB name = None) best_match ->
  Forall (fun name => Py.index_of Py.NL name = None) best_match ->
  exists text line,
    fs (fst (output outdir best_match inputfile w)) !! outdir =
      Some (default "" (fs w !! outdir) +:+ text)
    /\ line_iterator text = [line]
    /\ Py.split Py.TAB line = Spec.row inputfile best_match.
Proof.
  intros Htab Hnl Htabs Hnls.
  exists (Spec.row_text (Spec.row inputfile best_match)),
         (Py.join tab (Spec.row inputfile best_match)).
  split; [|split].
  - rewrite output_effect. simpl. apply lookup_insert_eq.
  - rewrite line_iterator_segments. apply row_text_is_one_line.
    by apply row_columns_free.
  - apply split_join_columns; [by destruct best_match as [|? [|? ?]]|].
    by apply row_columns_free.
Qed.

Lemma appended_row_reads_back_witness :
  let w := World {["BS_results.txt" := Spec.row_text Spec.header]} [] [] in
  let names := ["Vibrio cholerae"; "Vibrio mimicus"] in
  Py.index_of Py.TAB "sample.fasta" = None
  /\ Py.index_of Py.NL "sample.fasta" = None
  /\ Forall (fun name => Py.index_of Py.TAB name = None) names
  /\ Forall (fun name => Py.index_of Py.NL name = None) names
  /\ exists text line,
       fs (fst (output "BS_results.txt" names "sample.fasta" w)) !! "BS_results.txt" =
         Some (default "" (fs w !! "BS_results.txt") +:+ text)
       /\ line_iterator text = [line]
       /\ Py.split Py.TAB line = Spec.row "sample.fasta" names.
Proof.
  intros w names.
  assert (Htabs : Forall (fun name => Py.index_of Py.TAB name = None) names)
    by repeat constructor.
  assert (Hnls : Forall (fun name => Py.index_of Py.NL name = None) names)
    by repeat constructor.
  split; [reflexivity|]. split; [reflexivity|]. split; [exact Htabs|].
  split; [exact Hnls|].
  exact (appended_row_reads_back "BS_results.txt" names "sample.fasta" w
           eq_refl eq_refl Htabs Hnls).
Defined.

Lemma for_map_first_failure {A B} (f : A -> result B) before x after e :
  Forall (fun y => exists b, f y = Ok b) before ->
  f x = Raise e ->
  for_map f (before ++ x :: after) = Raise e.
Proof.
  intros Hbefore Hx. induction Hbefore as [|y before [b Hy] _ IH]; simpl.
  - by rewrite Hx.
  - by rewrite Hy, IH.
Qed.

(** X16. The hits are all built before the scan starts: the first line
    of the alignment output that does not parse decides the exception
    of the whole file, wherever it stands, whatever the index holds and
    whatever the lines before it would have given. *)
Theorem first_unparsable_line_decides
    (database : gmap string string) (out : string) before line after e :
  line_iterator out = before ++ line :: after ->
  Forall (fun earlier => exists hit, BlastResult.init earlier = Ok hit) before ->
  BlastResult.init line = Raise e ->
  best_of_output database out = Raise e.
Proof.
  intros Hlines Hbefore Hline. unfold best_of_output.
  by rewrite Hlines, (for_map_first_failure _ _ _ _ e Hbefore Hline).
Qed.

Lemma first_unparsable_line_decides_witness :
  let out := Scenario.good_hit +:+ Scenario.bad_hit in
  let good := Py.join tab ["NR_1"; "contig_1"; "1"; "16"; "5"; "20"; "0.0"; "2700";
                           "1500"; "99.75"; "16"; "ACGTACGTACGTACGT"] in
  let bad := Py.join tab ["NR_1"; "contig_1"] in
  line_iterator out = [good] ++ bad :: []
  /\ BlastResult.init bad = Raise IndexError
  /\ best_of_output ∅ out = Raise IndexError.
Proof.
  intros out good bad.
  assert (Hgood : Forall (fun earlier => exists hit, BlastResult.init earlier = Ok hit)
                         [good]).
  { constructor; [|constructor]. eexists. reflexivity. }
  split; [reflexivity|]. split; [reflexivity|].
  exact (first_unparsable_line_decides ∅ out [good] bad [] IndexError
           eq_refl Hgood eq_refl).
Defined.

End RowsAndLines.

(** ** The accepted hits never regress *)

Section AcceptedChain.



End AcceptedChain.
